(** * PCI bridge discovery and address-window decoding

    A shallow embedding of [dev/bus/pci/bus_mgr/bridge.cpp] (namespace [pci]):
    the three window decoders [bridge::io_range], [bridge::mem_range] and
    [bridge::prefetch_range], and the discovery routine [bridge::probe].

    Fixed-width C integers are carried as [Z] with every conversion and
    wrap-around written out.  The kernel heap, the global bus list and the
    sequence of calls to the collaborators are threaded through a small
    state monad. *)

From Stdlib Require Import ZArith Bool List Lia.
From stdpp Require Import base option gmap.
Import ListNotations.

Local Open Scope Z_scope.

Module pci.

(** ** Machine integers *)

(** Conversions to the unsigned types of the source. *)
Definition uint32_t (x : Z) : Z := x mod 2 ^ 32.
Definition uint64_t (x : Z) : Z := x mod 2 ^ 64.

(** [x << n] evaluated in [uint32_t], respectively [uint64_t]. *)
Definition shl32 (x n : Z) : Z := uint32_t (Z.shiftl x n).
Definition shl64 (x n : Z) : Z := uint64_t (Z.shiftl x n).

(** ** Configuration space *)

(** [pci_location_t]: segment, bus, device and function number. *)
Record pci_location_t := {
  segment : Z;
  bus : Z;
  dev : Z;
  fn : Z
}.

(** Modelled from the spec: the layout [pci_config_t] is declared in
    [dev/bus/pci.h], which is not among the sources.  The record holds the
    fields [bridge.cpp] reads, under the names it reads them by. *)
Record pci_config_type1 := {
  primary_bus : Z;
  secondary_bus : Z;
  subordinate_bus : Z;
  io_base : Z;
  io_limit : Z;
  memory_base : Z;
  memory_limit : Z;
  prefetchable_memory_base : Z;
  prefetchable_memory_limit : Z;
  prefetchable_base_upper : Z;
  prefetchable_limit_upper : Z
}.

Record pci_config_t := {
  vendor_id : Z;
  device_id : Z;
  type1 : pci_config_type1
}.

Definition fits (w x : Z) : bool := (0 <=? x) && (x <? 2 ^ w).

(** Modelled from the spec: the widths of the fields (section 4.1: 16-bit raw
    base and limit fields, 32-bit extension registers; bus numbers are
    bytes).  A narrower I/O field satisfies the same bound. *)
Definition config_ok (c : pci_config_t) : bool :=
  fits 16 (vendor_id c) && fits 16 (device_id c) &&
  fits 8 (primary_bus (type1 c)) && fits 8 (secondary_bus (type1 c)) &&
  fits 8 (subordinate_bus (type1 c)) &&
  fits 16 (io_base (type1 c)) && fits 16 (io_limit (type1 c)) &&
  fits 16 (memory_base (type1 c)) && fits 16 (memory_limit (type1 c)) &&
  fits 16 (prefetchable_memory_base (type1 c)) &&
  fits 16 (prefetchable_memory_limit (type1 c)) &&
  fits 32 (prefetchable_base_upper (type1 c)) &&
  fits 32 (prefetchable_limit_upper (type1 c)).

Definition zero_type1 : pci_config_type1 :=
  {| primary_bus := 0; secondary_bus := 0; subordinate_bus := 0;
     io_base := 0; io_limit := 0; memory_base := 0; memory_limit := 0;
     prefetchable_memory_base := 0; prefetchable_memory_limit := 0;
     prefetchable_base_upper := 0; prefetchable_limit_upper := 0 |}.

Definition zero_config : pci_config_t :=
  {| vendor_id := 0; device_id := 0; type1 := zero_type1 |}.

(** ** The bridge object *)

Definition bus_ptr := nat.
Definition bridge_ptr := nat.

(** The members of [bridge] (those of [device] included) that [bridge.cpp]
    touches; [None] is the null pointer. *)
Record bridge := {
  loc_ : pci_location_t;
  bus_ : option bus_ptr;
  config_ : pci_config_t;
  secondary_bus_ : option bus_ptr
}.

(** [bridge::range<T>] *)
Record range := {
  base : Z;
  limit : Z
}.

(** ** Address-window decoders *)

Definition io_range (this : bridge) : range :=
  let t := type1 (config_ this) in
  if io_limit t <? io_base t then
    {| base := 0; limit := 0 |}
  else
    {| base := shl32 (Z.shiftr (uint32_t (io_base t)) 4) 12;
       limit := Z.lor (shl32 (Z.shiftr (uint32_t (io_limit t)) 4) 12) 0xfff |}.

Definition mem_range (this : bridge) : range :=
  let t := type1 (config_ this) in
  if memory_limit t <? memory_base t then
    {| base := 0; limit := 0 |}
  else
    {| base := shl32 (Z.shiftr (uint32_t (memory_base t)) 4) 20;
       limit := Z.lor (shl32 (Z.shiftr (uint32_t (memory_limit t)) 4) 20) 0xfffff |}.

Definition prefetch_range (this : bridge) : range :=
  let t := type1 (config_ this) in
  if prefetchable_memory_limit t <? prefetchable_memory_base t then
    {| base := 0; limit := 0 |}
  else
    let is_64 := Z.land (prefetchable_memory_base t) 0xf =? 1 in
    let base0 := shl64 (Z.shiftr (uint64_t (prefetchable_memory_base t)) 4) 20 in
    let base1 :=
      if is_64 then Z.lor base0 (shl64 (uint64_t (prefetchable_base_upper t)) 32)
      else base0 in
    let limit0 :=
      Z.lor (shl64 (Z.shiftr (uint64_t (prefetchable_memory_limit t)) 4) 20) 0xfffff in
    let limit1 :=
      if is_64 then Z.lor limit0 (shl64 (uint64_t (prefetchable_limit_upper t)) 32)
      else limit0 in
    {| base := base1; limit := limit1 |}.

(** ** Status codes and registers *)

Definition status_t := Z.
Definition NO_ERROR : status_t := 0.

(** Modelled from the spec: [ERR_NOT_FOUND] comes from [lk/err.h], which is
    not among the sources; section 6 makes every error status a negative
    code, and NotFound is one of them. *)
Definition ERR_NOT_FOUND : status_t := -2.

(** The two register offsets [probe] reads on their own, from
    [dev/bus/pci.h]; kept symbolic. *)
Inductive config_reg :=
| PCI_CONFIG_VENDOR_ID
| PCI_CONFIG_HEADER_TYPE.

(** ** Collaborators

    What [probe] consumes from outside this file: the three configuration
    reads and the scan of a bus.  Each returns its status together with the
    value it stores through its out-pointer. *)
Record collaborators := {
  pci_read_config_half : pci_location_t -> config_reg -> status_t * Z;
  pci_read_config_byte : pci_location_t -> config_reg -> status_t * Z;
  pci_read_config : pci_location_t -> status_t * pci_config_t;
  bus_probe : pci_location_t -> bridge_ptr -> status_t * option bus_ptr
}.

(** Every call that leaves [probe], and every allocation, in program order. *)
Inductive event :=
| ev_read_config_half (loc : pci_location_t) (reg : config_reg)
| ev_read_config_byte (loc : pci_location_t) (reg : config_reg)
| ev_new_bridge (br : bridge_ptr)
| ev_read_config (loc : pci_location_t) (br : bridge_ptr)
| ev_delete_bridge (br : bridge_ptr)
| ev_probe_capabilities (br : bridge_ptr)
| ev_bus_probe (bus_location : pci_location_t) (br : bridge_ptr)
| ev_add_bus (br : bridge_ptr) (b : bus_ptr)
| ev_add_to_global_list (b : bus_ptr).

(** ** Kernel state *)

Record kernel := {
  heap : gmap nat bridge;     (* live bridge objects, by address *)
  bus_list : list bus_ptr;    (* the global bus list *)
  calls : list event          (* oldest first *)
}.

Definition boot : kernel := {| heap := ∅; bus_list := []; calls := [] |}.

Inductive fault :=
| assertion_failed
| bad_pointer.

Inductive outcome (A : Type) :=
| Done (a : A) (k : kernel)
| Fault (f : fault) (k : kernel).
Arguments Done {A} a k.
Arguments Fault {A} f k.

Definition M (A : Type) : Type := kernel -> outcome A.

Definition ret {A} (a : A) : M A := fun k => Done a k.

Definition bind {A B} (m : M A) (f : A -> M B) : M B :=
  fun k => match m k with
           | Done a k' => f a k'
           | Fault e k' => Fault e k'
           end.

Definition raise {A} (e : fault) : M A := fun k => Fault e k.

Notation "'let*' x ':=' m 'in' f" := (bind m (fun x => f))
  (at level 10, x pattern, m at level 100, f at level 200, only parsing).

Definition emit (e : event) : M unit :=
  fun k => Done tt {| heap := heap k; bus_list := bus_list k; calls := calls k ++ [e] |}.

Definition deref (p : bridge_ptr) : M bridge :=
  fun k => match heap k !! p with
           | Some b => Done b k
           | None => Fault bad_pointer k
           end.

Definition store (p : bridge_ptr) (b : bridge) : M unit :=
  fun k => Done tt {| heap := <[p := b]> (heap k); bus_list := bus_list k; calls := calls k |}.

(** [new bridge(loc, parent_bus)]: a fresh address holding a bridge bound to
    its location and parent bus.  The constructor hands both to [device],
    whose own constructor is not among the sources; section 4.2 has it bind
    them and leave the configuration unread, and a new bridge has no
    secondary bus. *)
Definition new_bridge (loc : pci_location_t) (parent_bus : option bus_ptr) : M bridge_ptr :=
  fun k =>
    let p := fresh (dom (heap k)) in
    let b := {| loc_ := loc; bus_ := parent_bus; config_ := zero_config;
                secondary_bus_ := None |} in
    Done p {| heap := <[p := b]> (heap k); bus_list := bus_list k;
              calls := calls k ++ [ev_new_bridge p] |}.

(** [delete br] *)
Definition delete_bridge (p : bridge_ptr) : M unit :=
  fun k => match heap k !! p with
           | Some _ =>
               Done tt {| heap := delete p (heap k); bus_list := bus_list k;
                          calls := calls k ++ [ev_delete_bridge p] |}
           | None => Fault bad_pointer k
           end.

Section Probe.

Variable env : collaborators.

Definition read_config_half (loc : pci_location_t) (reg : config_reg) : M (status_t * Z) :=
  let* _ := emit (ev_read_config_half loc reg) in ret (pci_read_config_half env loc reg).

Definition read_config_byte (loc : pci_location_t) (reg : config_reg) : M (status_t * Z) :=
  let* _ := emit (ev_read_config_byte loc reg) in ret (pci_read_config_byte env loc reg).

(** [pci_read_config(loc, &br->config_)]: the snapshot lands in the bridge. *)
Definition read_config (loc : pci_location_t) (br : bridge_ptr) : M status_t :=
  let* _ := emit (ev_read_config loc br) in
  let* b := deref br in
  let '(err, c) := pci_read_config env loc in
  let* _ := store br {| loc_ := loc_ b; bus_ := bus_ b; config_ := c;
                         secondary_bus_ := secondary_bus_ b |} in
  ret err.

(** [br->probe_capabilities()]: the capability walker, result ignored. *)
Definition probe_capabilities (br : bridge_ptr) : M unit :=
  emit (ev_probe_capabilities br).

(** [bus::probe(bus_location, br, &new_bus)].  The scan is seen from this
    call: its status and the bus it hands back.  What the scan does on its
    own below the bridge (the bridges it allocates, the buses it registers,
    the calls it makes in turn) is not in the state threaded here, so the
    heap, the bus list and the call log are those of this invocation. *)
Definition scan_bus (bus_location : pci_location_t) (br : bridge_ptr)
  : M (status_t * option bus_ptr) :=
  let* _ := emit (ev_bus_probe bus_location br) in ret (bus_probe env bus_location br).

(** Modelled from the spec: [bridge::add_bus] is defined in [bridge.h], which
    is not among the sources; section 4.3 has the returned bus attached as
    the bridge's secondary-bus reference. *)
Definition add_bus (br : bridge_ptr) (new_bus : bus_ptr) : M unit :=
  let* _ := emit (ev_add_bus br new_bus) in
  let* b := deref br in
  store br {| loc_ := loc_ b; bus_ := bus_ b; config_ := config_ b;
              secondary_bus_ := Some new_bus |}.

(** Modelled from the spec: [bus::add_to_global_list] is defined in [bus.h],
    which is not among the sources; section 4.3 has the bus registered in
    the process-wide registry. *)
Definition add_to_global_list (new_bus : bus_ptr) : M unit :=
  let* _ := emit (ev_add_to_global_list new_bus) in
  fun k => Done tt {| heap := heap k; bus_list := bus_list k ++ [new_bus];
                      calls := calls k |}.

(** [bridge::probe].  The out-parameter [*out_bridge] is returned next to the
    status: it is what the caller finds there when [probe] returns.  The
    accessors [secondary_bus()] and [subordinate_bus()] of [bridge.h] read
    the fields of [config_.type1] that line 81 reads directly.  The trace
    macros expand to nothing under [LOCAL_TRACE 0]. *)
Definition probe (loc : pci_location_t) (parent_bus : option bus_ptr)
  : M (status_t * option bridge_ptr) :=
  let out_bridge : option bridge_ptr := None in
  let* (err, vendor_id) := read_config_half loc PCI_CONFIG_VENDOR_ID in
  if negb (err =? NO_ERROR) then ret (ERR_NOT_FOUND, out_bridge) else
  if vendor_id =? 0xffff then ret (ERR_NOT_FOUND, out_bridge) else
  let* (err, header_type) := read_config_byte loc PCI_CONFIG_HEADER_TYPE in
  if negb (err =? NO_ERROR) then ret (ERR_NOT_FOUND, out_bridge) else
  let* br := new_bridge loc parent_bus in
  let* err := read_config loc br in
  if err <? 0 then
    let* _ := delete_bridge br in
    ret (err, out_bridge)
  else
  let* _ := probe_capabilities br in
  let out_bridge := Some br in
  let* b := deref br in
  let t := type1 (config_ b) in
  if (0 <? secondary_bus t) && (secondary_bus t <=? subordinate_bus t) then
    let bus_location :=
      {| segment := segment loc; bus := secondary_bus t; dev := 0; fn := 0 |} in
    let* (err, new_bus) := scan_bus bus_location br in
    if err <? 0 then ret (err, out_bridge) else
    match new_bus with
    | None => raise assertion_failed
    | Some new_bus =>
        let* _ := add_bus br new_bus in
        let* _ := add_to_global_list new_bus in
        ret (NO_ERROR, out_bridge)
    end
  else
    ret (NO_ERROR, out_bridge).

End Probe.

(** ** The decoders as the specification words them

    Section 8: the decoded memory base is [(b & 0xFFF0)] moved to MiB
    alignment, the decoded limit is [(l & 0xFFF0)] moved to MiB alignment
    and OR-ed with [0xFFFFF].  The field sits 16 bits below its place in the
    address. *)
Definition spec_mem_range (b l : Z) : range :=
  {| base := Z.shiftl (Z.land b 0xFFF0) 16;
     limit := Z.lor (Z.shiftl (Z.land l 0xFFF0) 16) 0xFFFFF |}.

(** The canonical empty range. *)
Definition empty_range : range := {| base := 0; limit := 0 |}.

(** ** Sample inputs *)

Definition sample_loc : pci_location_t :=
  {| segment := 0; bus := 0; dev := 3; fn := 0 |}.

Definition bridge_at (loc : pci_location_t) (c : pci_config_t) : bridge :=
  {| loc_ := loc; bus_ := None; config_ := c; secondary_bus_ := None |}.

(** A bridge forwarding I/O 0x2000..0x3fff, memory 0x10000000..0x1fffffff
    and a 64-bit prefetchable window 0x1_00100000..0x2_002fffff. *)
Definition windows_config : pci_config_t :=
  {| vendor_id := 0x8086; device_id := 0x1234;
     type1 := {| primary_bus := 0; secondary_bus := 1; subordinate_bus := 1;
                 io_base := 0x21; io_limit := 0x31;
                 memory_base := 0x1000; memory_limit := 0x1ff0;
                 prefetchable_memory_base := 0x0011;
                 prefetchable_memory_limit := 0x0021;
                 prefetchable_base_upper := 1;
                 prefetchable_limit_upper := 2 |} |}.

(** A 64-bit prefetchable window whose low fields are in order while its
    extension registers are not. *)
Definition crossed_config : pci_config_t :=
  {| vendor_id := 0x8086; device_id := 0x1234;
     type1 := {| primary_bus := 0; secondary_bus := 1; subordinate_bus := 1;
                 io_base := 0; io_limit := 0;
                 memory_base := 0; memory_limit := 0;
                 prefetchable_memory_base := 0x0001;
                 prefetchable_memory_limit := 0x0001;
                 prefetchable_base_upper := 1;
                 prefetchable_limit_upper := 0 |} |}.

(** ** The runs of [probe]

    Every way [probe] can go, with the state it leaves behind; [p] is the
    address [new] hands out and [c] the snapshot [pci_read_config] stores. *)

Definition final {A} (o : outcome A) : kernel :=
  match o with
  | Done _ k => k
  | Fault _ k => k
  end.

Definition sane_bus_range (c : pci_config_t) : bool :=
  (0 <? secondary_bus (type1 c)) &&
  (secondary_bus (type1 c) <=? subordinate_bus (type1 c)).

Definition secondary_location (loc : pci_location_t) (c : pci_config_t) : pci_location_t :=
  {| segment := segment loc; bus := secondary_bus (type1 c); dev := 0; fn := 0 |}.

Inductive probe_run (env : collaborators) (loc : pci_location_t)
    (parent_bus : option bus_ptr) (k : kernel)
  : outcome (status_t * option bridge_ptr) -> Prop :=
| run_not_found (es : list event) :
    es = [ev_read_config_half loc PCI_CONFIG_VENDOR_ID] \/
    es = [ev_read_config_half loc PCI_CONFIG_VENDOR_ID;
          ev_read_config_byte loc PCI_CONFIG_HEADER_TYPE] ->
    probe_run env loc parent_bus k
      (Done (ERR_NOT_FOUND, None)
         {| heap := heap k; bus_list := bus_list k; calls := calls k ++ es |})
| run_config_unreadable (p : bridge_ptr) (e : status_t) :
    p = fresh (dom (heap k)) ->
    fst (pci_read_config env loc) = e ->
    e < 0 ->
    probe_run env loc parent_bus k
      (Done (e, None)
         {| heap := heap k; bus_list := bus_list k;
            calls := calls k ++ [ev_read_config_half loc PCI_CONFIG_VENDOR_ID;
                                 ev_read_config_byte loc PCI_CONFIG_HEADER_TYPE;
                                 ev_new_bridge p;
                                 ev_read_config loc p;
                                 ev_delete_bridge p] |})
| run_leaf (p : bridge_ptr) (e : status_t) (c : pci_config_t) :
    p = fresh (dom (heap k)) ->
    pci_read_config env loc = (e, c) ->
    0 <= e ->
    sane_bus_range c = false ->
    probe_run env loc parent_bus k
      (Done (NO_ERROR, Some p)
         {| heap := <[p := {| loc_ := loc; bus_ := parent_bus; config_ := c;
                              secondary_bus_ := None |}]> (heap k);
            bus_list := bus_list k;
            calls := calls k ++ [ev_read_config_half loc PCI_CONFIG_VENDOR_ID;
                                 ev_read_config_byte loc PCI_CONFIG_HEADER_TYPE;
                                 ev_new_bridge p;
                                 ev_read_config loc p;
                                 ev_probe_capabilities p] |})
| run_downstream_failed (p : bridge_ptr) (e : status_t) (c : pci_config_t)
    (e' : status_t) :
    p = fresh (dom (heap k)) ->
    pci_read_config env loc = (e, c) ->
    0 <= e ->
    sane_bus_range c = true ->
    fst (bus_probe env (secondary_location loc c) p) = e' ->
    e' < 0 ->
    probe_run env loc parent_bus k
      (Done (e', Some p)
         {| heap := <[p := {| loc_ := loc; bus_ := parent_bus; config_ := c;
                              secondary_bus_ := None |}]> (heap k);
            bus_list := bus_list k;
            calls := calls k ++ [ev_read_config_half loc PCI_CONFIG_VENDOR_ID;
                                 ev_read_config_byte loc PCI_CONFIG_HEADER_TYPE;
                                 ev_new_bridge p;
                                 ev_read_config loc p;
                                 ev_probe_capabilities p;
                                 ev_bus_probe (secondary_location loc c) p] |})
| run_downstream_null (p : bridge_ptr) (e : status_t) (c : pci_config_t)
    (e' : status_t) :
    p = fresh (dom (heap k)) ->
    pci_read_config env loc = (e, c) ->
    0 <= e ->
    sane_bus_range c = true ->
    bus_probe env (secondary_location loc c) p = (e', None) ->
    0 <= e' ->
    probe_run env loc parent_bus k
      (Fault assertion_failed
         {| heap := <[p := {| loc_ := loc; bus_ := parent_bus; config_ := c;
                              secondary_bus_ := None |}]> (heap k);
            bus_list := bus_list k;
            calls := calls k ++ [ev_read_config_half loc PCI_CONFIG_VENDOR_ID;
                                 ev_read_config_byte loc PCI_CONFIG_HEADER_TYPE;
                                 ev_new_bridge p;
                                 ev_read_config loc p;
                                 ev_probe_capabilities p;
                                 ev_bus_probe (secondary_location loc c) p] |})
| run_downstream_linked (p : bridge_ptr) (e : status_t) (c : pci_config_t)
    (e' : status_t) (new_bus : bus_ptr) :
    p = fresh (dom (heap k)) ->
    pci_read_config env loc = (e, c) ->
    0 <= e ->
    sane_bus_range c = true ->
    bus_probe env (secondary_location loc c) p = (e', Some new_bus) ->
    0 <= e' ->
    probe_run env loc parent_bus k
      (Done (NO_ERROR, Some p)
         {| heap := <[p := {| loc_ := loc; bus_ := parent_bus; config_ := c;
                              secondary_bus_ := Some new_bus |}]> (heap k);
            bus_list := bus_list k ++ [new_bus];
            calls := calls k ++ [ev_read_config_half loc PCI_CONFIG_VENDOR_ID;
                                 ev_read_config_byte loc PCI_CONFIG_HEADER_TYPE;
                                 ev_new_bridge p;
                                 ev_read_config loc p;
                                 ev_probe_capabilities p;
                                 ev_bus_probe (secondary_location loc c) p;
                                 ev_add_bus p new_bus;
                                 ev_add_to_global_list new_bus] |}).

(** ** Sample collaborators *)

(** The registers of scenario A of section 8, the secondary bus number left
    open: vendor 0x8086, subordinate bus 5, every window register zero. *)
Definition scenario_config (sec : Z) : pci_config_t :=
  {| vendor_id := 0x8086; device_id := 0x1234;
     type1 := {| primary_bus := 0; secondary_bus := sec; subordinate_bus := 5;
                 io_base := 0; io_limit := 0;
                 memory_base := 0; memory_limit := 0;
                 prefetchable_memory_base := 0;
                 prefetchable_memory_limit := 0;
                 prefetchable_base_upper := 0;
                 prefetchable_limit_upper := 0 |} |}.

(** A platform answering every read with those registers, header type 1,
    and every bus scan with [scan]. *)
Definition scenario_env (sec : Z) (scan : status_t * option bus_ptr) : collaborators :=
  {| pci_read_config_half := fun _ _ => (NO_ERROR, 0x8086);
     pci_read_config_byte := fun _ _ => (NO_ERROR, 1);
     pci_read_config := fun _ => (NO_ERROR, scenario_config sec);
     bus_probe := fun _ _ => scan |}.

(** An empty slot: the vendor id reads as all-ones. *)
Definition empty_slot_env : collaborators :=
  {| pci_read_config_half := fun _ _ => (NO_ERROR, 0xffff);
     pci_read_config_byte := fun _ _ => (NO_ERROR, 0);
     pci_read_config := fun _ => (NO_ERROR, zero_config);
     bus_probe := fun _ _ => (NO_ERROR, None) |}.

(** A device that answers the two short reads and fails the full one. *)
Definition unreadable_env : collaborators :=
  {| pci_read_config_half := fun _ _ => (NO_ERROR, 0x8086);
     pci_read_config_byte := fun _ _ => (NO_ERROR, 1);
     pci_read_config := fun _ => (-20, zero_config);
     bus_probe := fun _ _ => (NO_ERROR, None) |}.

(** ** Collaborators that differ in one answer *)

(** [env] with the value of every header-type read replaced by [h]; the
    status of the read and all other answers stay. *)
Definition with_header_type (env : collaborators) (h : Z) : collaborators :=
  {| pci_read_config_half := pci_read_config_half env;
     pci_read_config_byte := fun loc reg => (fst (pci_read_config_byte env loc reg), h);
     pci_read_config := pci_read_config env;
     bus_probe := bus_probe env |}.

(** The calls that start a scan of a downstream bus. *)
Definition is_bus_probe (ev : event) : bool :=
  match ev with
  | ev_bus_probe _ _ => true
  | _ => false
  end.

(** A device whose header-type read fails. *)
Definition unclassified_env : collaborators :=
  {| pci_read_config_half := fun _ _ => (NO_ERROR, 0x8086);
     pci_read_config_byte := fun _ _ => (-20, 0);
     pci_read_config := fun _ => (NO_ERROR, zero_config);
     bus_probe := fun _ _ => (NO_ERROR, None) |}.

(** Collaborators that answer with positive statuses throughout. *)
Definition positive_status_env : collaborators :=
  {| pci_read_config_half := fun _ _ => (NO_ERROR, 0x8086);
     pci_read_config_byte := fun _ _ => (NO_ERROR, 1);
     pci_read_config := fun _ => (3, scenario_config 2);
     bus_probe := fun _ _ => (4, Some 7%nat) |}.

(** A bridge whose windows contain those of [windows_config], with other low
    nibbles, and whose prefetchable window is a 32-bit one with the raw
    fields of its memory window. *)
Definition wider_config : pci_config_t :=
  {| vendor_id := 0x8086; device_id := 0x1234;
     type1 := {| primary_bus := 0; secondary_bus := 1; subordinate_bus := 1;
                 io_base := 0x20; io_limit := 0x3f;
                 memory_base := 0x1000; memory_limit := 0x1fff;
                 prefetchable_memory_base := 0x1000;
                 prefetchable_memory_limit := 0x1fff;
                 prefetchable_base_upper := 5;
                 prefetchable_limit_upper := 6 |} |}.

End pci.

Import pci.

(** * Bit-level facts *)

Section Bits.

Lemma fits_spec (w x : Z) : fits w x = true <-> 0 <= x < 2 ^ w.
Proof.
  unfold fits. rewrite andb_true_iff, Z.leb_le, Z.ltb_lt. tauto.
Qed.

(** Dropping the low nibble leaves a 12-bit value. *)
Lemma nibble_dropped (x : Z) : 0 <= x < 2 ^ 16 -> 0 <= x / 16 < 2 ^ 12.
Proof.
  intros [H0 H1]. split.
  - apply Z.div_pos; lia.
  - apply Z.div_lt_upper_bound; [lia|]. exact H1.
Qed.

(** [((T)x >> 4) << n] never wraps in an [m]-bit type when [12 + n <= m]. *)
Lemma shr4_shl (m x n : Z) :
  0 <= x < 2 ^ 16 -> 4 <= n -> 12 + n <= m ->
  Z.shiftl (Z.shiftr (x mod 2 ^ m) 4) n mod 2 ^ m = x / 16 * 2 ^ n.
Proof.
  intros Hx Hn Hm.
  assert (Hp : 2 ^ 16 <= 2 ^ m) by (apply Z.pow_le_mono_r; lia).
  rewrite (Z.mod_small x) by lia.
  rewrite Z.shiftr_div_pow2, Z.shiftl_mul_pow2 by lia.
  change (2 ^ 4) with 16.
  pose proof (nibble_dropped x Hx) as Hq.
  apply Z.mod_small. split; [apply Z.mul_nonneg_nonneg; lia|].
  apply Z.lt_le_trans with (2 ^ 12 * 2 ^ n).
  - apply Z.mul_lt_mono_pos_r; lia.
  - rewrite <- Z.pow_add_r by lia. apply Z.pow_le_mono_r; lia.
Qed.

(** OR-ing the low [n] ones onto a multiple of [2 ^ n] adds them. *)
Lemma lor_low_ones (a n : Z) :
  0 <= n -> Z.lor (a * 2 ^ n) (2 ^ n - 1) = a * 2 ^ n + (2 ^ n - 1).
Proof.
  intros Hn. rewrite <- Z.add_lor_land.
  replace (Z.land (a * 2 ^ n) (2 ^ n - 1)) with 0; [lia|].
  symmetry. apply Z.bits_inj'. intros i Hi.
  replace (2 ^ n - 1) with (Z.ones n) by (rewrite Z.ones_equiv; lia).
  rewrite Z.land_spec, Z.bits_0, <- Z.shiftl_mul_pow2 by lia.
  destruct (Z.ltb_spec i n).
  - rewrite Z.shiftl_spec_low by lia. reflexivity.
  - rewrite Z.ones_spec_high by lia. apply andb_false_r.
Qed.

(** Masking with [0xFFF0] clears the low nibble of a 16-bit value. *)
Lemma land_fff0 (x : Z) : 0 <= x < 2 ^ 16 -> Z.land x 0xfff0 = x / 16 * 2 ^ 4.
Proof.
  intros Hx. change 0xfff0 with (Z.shiftl (Z.ones 12) 4).
  change (x / 16) with (x / 2 ^ 4).
  rewrite <- Z.shiftr_div_pow2, <- Z.shiftl_mul_pow2 by lia.
  apply Z.bits_inj'. intros i Hi. rewrite Z.land_spec.
  destruct (Z.ltb_spec i 4).
  - rewrite !Z.shiftl_spec_low by lia. apply andb_false_r.
  - rewrite !Z.shiftl_spec, Z.shiftr_spec by lia.
    replace (i - 4 + 4) with i by lia.
    destruct (Z.ltb_spec (i - 4) 12).
    + rewrite Z.ones_spec_low by lia. apply andb_true_r.
    + rewrite Z.ones_spec_high, andb_false_r by lia.
      rewrite <- (Z.mod_small x (2 ^ 16)) by lia.
      symmetry. apply Z.mod_pow2_bits_high. lia.
Qed.

(** An extension register moved to bits 32 and up, OR-ed over 32 low bits. *)
Lemma lor_upper (lo u : Z) :
  0 <= lo < 2 ^ 32 -> 0 <= u < 2 ^ 32 ->
  Z.lor lo (Z.shiftl (u mod 2 ^ 64) 32 mod 2 ^ 64) = u * 2 ^ 32 + lo.
Proof.
  intros Hlo Hu.
  rewrite (Z.mod_small u) by lia.
  rewrite Z.shiftl_mul_pow2 by lia.
  rewrite (Z.mod_small (u * 2 ^ 32)) by lia.
  rewrite (Z.add_comm (u * 2 ^ 32)), <- Z.add_lor_land.
  replace (Z.land lo (u * 2 ^ 32)) with 0; [lia|].
  symmetry. apply Z.bits_inj'. intros i Hi.
  rewrite Z.land_spec, Z.bits_0, <- Z.shiftl_mul_pow2 by lia.
  destruct (Z.ltb_spec i 32).
  - rewrite Z.shiftl_spec_low by lia. apply andb_false_r.
  - rewrite <- (Z.mod_small lo (2 ^ 32)) by lia.
    rewrite Z.mod_pow2_bits_high by lia. reflexivity.
Qed.

Lemma shiftr32_upper (lo u : Z) :
  0 <= lo < 2 ^ 32 -> Z.shiftr (u * 2 ^ 32 + lo) 32 = u.
Proof.
  intros Hlo. rewrite Z.shiftr_div_pow2 by lia.
  rewrite Z.add_comm, Z.div_add by lia.
  rewrite Z.div_small by lia. lia.
Qed.

End Bits.

(** * The decoders in closed form *)

Section Decoders.

Variable this : bridge.
Let t := type1 (config_ this).

Hypothesis Hok : config_ok (config_ this) = true.

Lemma config_ok_bounds :
  0 <= secondary_bus t < 2 ^ 8 /\ 0 <= subordinate_bus t < 2 ^ 8 /\
  0 <= io_base t < 2 ^ 16 /\ 0 <= io_limit t < 2 ^ 16 /\
  0 <= memory_base t < 2 ^ 16 /\ 0 <= memory_limit t < 2 ^ 16 /\
  0 <= prefetchable_memory_base t < 2 ^ 16 /\
  0 <= prefetchable_memory_limit t < 2 ^ 16 /\
  0 <= prefetchable_base_upper t < 2 ^ 32 /\
  0 <= prefetchable_limit_upper t < 2 ^ 32.
Proof.
  revert Hok. unfold config_ok. fold t.
  rewrite !andb_true_iff, !fits_spec. tauto.
Qed.

Lemma io_range_closed :
  io_base t <= io_limit t ->
  io_range this =
    {| base := io_base t / 16 * 2 ^ 12;
       limit := io_limit t / 16 * 2 ^ 12 + (2 ^ 12 - 1) |}.
Proof.
  intros Hle. destruct config_ok_bounds as (_ & _ & Hb & Hl & _).
  unfold io_range. fold t.
  destruct (Z.ltb_spec (io_limit t) (io_base t)); [lia|].
  unfold shl32, uint32_t. rewrite !shr4_shl by lia.
  f_equal. apply (lor_low_ones _ 12). lia.
Qed.

Lemma mem_range_closed :
  memory_base t <= memory_limit t ->
  mem_range this =
    {| base := memory_base t / 16 * 2 ^ 20;
       limit := memory_limit t / 16 * 2 ^ 20 + (2 ^ 20 - 1) |}.
Proof.
  intros Hle. destruct config_ok_bounds as (_ & _ & _ & _ & Hb & Hl & _).
  unfold mem_range. fold t.
  destruct (Z.ltb_spec (memory_limit t) (memory_base t)); [lia|].
  unfold shl32, uint32_t. rewrite !shr4_shl by lia.
  f_equal. apply (lor_low_ones _ 20). lia.
Qed.

(** The 32 low bits of a decoded prefetchable bound stay below [2 ^ 32]. *)
Lemma low_part_bound (x : Z) :
  0 <= x < 2 ^ 16 ->
  0 <= x / 16 * 2 ^ 20 /\ x / 16 * 2 ^ 20 + (2 ^ 20 - 1) < 2 ^ 32.
Proof.
  intros Hx. pose proof (nibble_dropped x Hx). lia.
Qed.

Lemma prefetch_range_closed :
  prefetchable_memory_base t <= prefetchable_memory_limit t ->
  let is_64 := Z.land (prefetchable_memory_base t) 0xf =? 1 in
  prefetch_range this =
    {| base := (if is_64 then prefetchable_base_upper t else 0) * 2 ^ 32
               + prefetchable_memory_base t / 16 * 2 ^ 20;
       limit := (if is_64 then prefetchable_limit_upper t else 0) * 2 ^ 32
                + (prefetchable_memory_limit t / 16 * 2 ^ 20 + (2 ^ 20 - 1)) |}.
Proof.
  intros Hle is_64.
  destruct config_ok_bounds as (_ & _ & _ & _ & _ & _ & Hb & Hl & Hbu & Hlu).
  unfold prefetch_range. fold t.
  destruct (Z.ltb_spec (prefetchable_memory_limit t) (prefetchable_memory_base t)); [lia|].
  fold is_64. unfold shl64, uint64_t. rewrite !shr4_shl by lia.
  rewrite (lor_low_ones _ 20) by lia.
  pose proof (low_part_bound _ Hb). pose proof (low_part_bound _ Hl).
  destruct is_64.
  - rewrite !lor_upper by lia. reflexivity.
  - f_equal; lia.
Qed.

End Decoders.

(** * Properties of the address-window decoders *)

Section DecoderClaims.

Variable this : bridge.
Let t := type1 (config_ this).

(** C2. For a 16-bit memory base/limit pair [b <= l], the decoded memory
    range has base [(b & 0xFFF0)] moved to 1 MiB alignment and limit
    [(l & 0xFFF0)] moved to 1 MiB alignment OR-ed with [0xFFFFF]. *)
Theorem mem_range_decoding :
  config_ok (config_ this) = true ->
  memory_base t <= memory_limit t ->
  mem_range this = spec_mem_range (memory_base t) (memory_limit t).
Proof.
  intros Hok Hle.
  destruct (config_ok_bounds this Hok) as (_ & _ & _ & _ & Hb & Hl & _).
  fold t in Hb, Hl.
  rewrite mem_range_closed by assumption. fold t.
  unfold spec_mem_range.
  rewrite !land_fff0, !Z.shiftl_mul_pow2 by lia.
  rewrite <- !Z.mul_assoc, <- !Z.pow_add_r by lia. simpl (4 + 16).
  rewrite (lor_low_ones _ 20) by lia. reflexivity.
Qed.

(** C3, as amended. Whenever the raw limit field is below the raw base
    field, each decoder returns exactly [{0, 0}]; [io_range] and [mem_range]
    never return a limit below the base, and neither does [prefetch_range]
    when the window is a 32-bit one or its limit-upper register is not below
    its base-upper register. *)
Theorem degenerate_windows_decode_empty :
  config_ok (config_ this) = true ->
  (io_limit t < io_base t -> io_range this = empty_range) /\
  (memory_limit t < memory_base t -> mem_range this = empty_range) /\
  (prefetchable_memory_limit t < prefetchable_memory_base t ->
     prefetch_range this = empty_range) /\
  base (io_range this) <= limit (io_range this) /\
  base (mem_range this) <= limit (mem_range this) /\
  (Z.land (prefetchable_memory_base t) 0xf <> 1 \/
   prefetchable_base_upper t <= prefetchable_limit_upper t ->
     base (prefetch_range this) <= limit (prefetch_range this)).
Proof.
  intros Hok.
  destruct (config_ok_bounds this Hok)
    as (_ & _ & Hib & Hil & Hmb & Hml & Hpb & Hpl & Hbu & Hlu).
  fold t in Hib, Hil, Hmb, Hml, Hpb, Hpl, Hbu, Hlu.
  split; [|split; [|split; [|split; [|split]]]].
  - intros H. unfold io_range. fold t. apply Z.ltb_lt in H. rewrite H. reflexivity.
  - intros H. unfold mem_range. fold t. apply Z.ltb_lt in H. rewrite H. reflexivity.
  - intros H. unfold prefetch_range. fold t. apply Z.ltb_lt in H. rewrite H. reflexivity.
  - destruct (Z.lt_ge_cases (io_limit t) (io_base t)) as [H|H].
    + unfold io_range. fold t. apply Z.ltb_lt in H. rewrite H. simpl. lia.
    + rewrite io_range_closed by assumption. fold t. simpl base. simpl limit.
      pose proof (Z.div_le_mono _ _ 16 ltac:(lia) H). lia.
  - destruct (Z.lt_ge_cases (memory_limit t) (memory_base t)) as [H|H].
    + unfold mem_range. fold t. apply Z.ltb_lt in H. rewrite H. simpl. lia.
    + rewrite mem_range_closed by assumption. fold t. simpl base. simpl limit.
      pose proof (Z.div_le_mono _ _ 16 ltac:(lia) H). lia.
  - intros Hup.
    destruct (Z.lt_ge_cases (prefetchable_memory_limit t) (prefetchable_memory_base t))
      as [H|H].
    + unfold prefetch_range. fold t. apply Z.ltb_lt in H. rewrite H. simpl. lia.
    + rewrite prefetch_range_closed by assumption. fold t. simpl base. simpl limit.
      pose proof (Z.div_le_mono _ _ 16 ltac:(lia) H).
      destruct (Z.eqb_spec (Z.land (prefetchable_memory_base t) 0xf) 1); lia.
Qed.

(** C4. For a prefetchable window with raw limit >= raw base: when the low
    nibble of the raw base field is 1, bits 32 and up of the decoded base are
    the base-upper register and those of the decoded limit are the
    limit-upper register; otherwise both have no bit set above bit 31,
    whatever the extension registers hold. *)
Theorem prefetch_range_upper_bits :
  config_ok (config_ this) = true ->
  prefetchable_memory_base t <= prefetchable_memory_limit t ->
  (Z.land (prefetchable_memory_base t) 0xf = 1 ->
     Z.shiftr (base (prefetch_range this)) 32 = prefetchable_base_upper t /\
     Z.shiftr (limit (prefetch_range this)) 32 = prefetchable_limit_upper t) /\
  (Z.land (prefetchable_memory_base t) 0xf <> 1 ->
     Z.shiftr (base (prefetch_range this)) 32 = 0 /\
     Z.shiftr (limit (prefetch_range this)) 32 = 0) /\
  base (prefetch_range this) mod 2 ^ 32 = prefetchable_memory_base t / 16 * 2 ^ 20 /\
  limit (prefetch_range this) mod 2 ^ 32 =
    prefetchable_memory_limit t / 16 * 2 ^ 20 + (2 ^ 20 - 1).
Proof.
  intros Hok Hle.
  destruct (config_ok_bounds this Hok) as (_ & _ & _ & _ & _ & _ & Hpb & Hpl & _).
  fold t in Hpb, Hpl.
  pose proof (low_part_bound _ Hpb) as Lb. pose proof (low_part_bound _ Hpl) as Ll.
  rewrite prefetch_range_closed by assumption. fold t. simpl base. simpl limit.
  split; [|split; [|split]].
  - intros H. apply Z.eqb_eq in H. rewrite H.
    split; apply shiftr32_upper; lia.
  - intros H. apply Z.eqb_neq in H. rewrite H.
    split; apply shiftr32_upper; lia.
  - rewrite Z.add_comm, Z.mod_add by lia. apply Z.mod_small. lia.
  - rewrite Z.add_comm, Z.mod_add by lia. apply Z.mod_small. lia.
Qed.

(** C10. For [io_range] and [mem_range], a raw limit not below the raw base
    decodes to a base not above the limit; the base is 4 KiB-, respectively
    1 MiB-aligned, and the low 12, respectively 20, bits of the limit are all
    ones. *)
Theorem io_mem_windows_ordered_aligned :
  config_ok (config_ this) = true ->
  (io_base t <= io_limit t ->
     base (io_range this) <= limit (io_range this) /\
     base (io_range this) mod 2 ^ 12 = 0 /\
     Z.land (limit (io_range this)) 0xfff = 0xfff) /\
  (memory_base t <= memory_limit t ->
     base (mem_range this) <= limit (mem_range this) /\
     base (mem_range this) mod 2 ^ 20 = 0 /\
     Z.land (limit (mem_range this)) 0xfffff = 0xfffff).
Proof.
  intros Hok.
  destruct (config_ok_bounds this Hok) as (_ & _ & Hib & Hil & Hmb & Hml & _).
  fold t in Hib, Hil, Hmb, Hml.
  split; intros H.
  - rewrite io_range_closed by assumption. fold t. simpl base. simpl limit.
    pose proof (Z.div_le_mono _ _ 16 ltac:(lia) H).
    repeat split.
    + lia.
    + apply Z.mod_mul. lia.
    + change 0xfff with (Z.ones 12). rewrite Z.land_ones by lia.
      rewrite Z.add_comm, Z.mod_add by lia. reflexivity.
  - rewrite mem_range_closed by assumption. fold t. simpl base. simpl limit.
    pose proof (Z.div_le_mono _ _ 16 ltac:(lia) H).
    repeat split.
    + lia.
    + apply Z.mod_mul. lia.
    + change 0xfffff with (Z.ones 20). rewrite Z.land_ones by lia.
      rewrite Z.add_comm, Z.mod_add by lia. reflexivity.
Qed.

End DecoderClaims.

(** ** The decoders on the sample bridges *)

Lemma mem_range_decoding_witness :
  mem_range (bridge_at sample_loc windows_config) =
    {| base := 0x10000000; limit := 0x1fffffff |}.
Proof.
  apply (mem_range_decoding (bridge_at sample_loc windows_config));
    [reflexivity | vm_compute; discriminate].
Defined.

Lemma degenerate_windows_decode_empty_witness :
  config_ok windows_config = true /\
  base (prefetch_range (bridge_at sample_loc windows_config))
    <= limit (prefetch_range (bridge_at sample_loc windows_config)).
Proof.
  split; [reflexivity|].
  apply (degenerate_windows_decode_empty (bridge_at sample_loc windows_config));
    [reflexivity | right; vm_compute; discriminate].
Defined.

(** C3 as first stated fails: a 64-bit prefetchable window whose raw limit
    field is not below its raw base field, decoded to a limit below the
    base. *)
Lemma prefetch_range_crossed :
  config_ok crossed_config = true /\
  prefetchable_memory_base (type1 crossed_config)
    <= prefetchable_memory_limit (type1 crossed_config) /\
  prefetch_range (bridge_at sample_loc crossed_config) =
    {| base := 0x100000000; limit := 0xfffff |} /\
  limit (prefetch_range (bridge_at sample_loc crossed_config))
    < base (prefetch_range (bridge_at sample_loc crossed_config)).
Proof.
  split; [reflexivity|].
  split; [vm_compute; discriminate|].
  split; reflexivity.
Qed.

Lemma prefetch_range_upper_bits_witness :
  Z.shiftr (base (prefetch_range (bridge_at sample_loc windows_config))) 32 = 1 /\
  Z.shiftr (limit (prefetch_range (bridge_at sample_loc windows_config))) 32 = 2.
Proof.
  apply (prefetch_range_upper_bits (bridge_at sample_loc windows_config));
    [reflexivity | vm_compute; discriminate | reflexivity].
Defined.

Lemma io_mem_windows_ordered_aligned_witness :
  base (io_range (bridge_at sample_loc windows_config))
    <= limit (io_range (bridge_at sample_loc windows_config)) /\
  base (io_range (bridge_at sample_loc windows_config)) mod 2 ^ 12 = 0 /\
  Z.land (limit (io_range (bridge_at sample_loc windows_config))) 0xfff = 0xfff.
Proof.
  apply (io_mem_windows_ordered_aligned (bridge_at sample_loc windows_config));
    [reflexivity | vm_compute; discriminate].
Defined.

(** * Symbolic runs of [probe] *)

Section ProbeRun.

Variable env : collaborators.
Variable loc : pci_location_t.
Variable parent_bus : option bus_ptr.
Variable k : kernel.

(** The address [new] hands out, and the bridge object found there. *)
Let p : bridge_ptr := fresh (dom (heap k)).
Let object (c : pci_config_t) (sb : option bus_ptr) : bridge :=
  {| loc_ := loc; bus_ := parent_bus; config_ := c; secondary_bus_ := sb |}.

Lemma fresh_unused : heap k !! p = None.
Proof. apply not_elem_of_dom. apply is_fresh. Qed.

Ltac run :=
  unfold probe, read_config_half, read_config_byte, read_config,
    probe_capabilities, scan_bus, add_bus, add_to_global_list,
    new_bridge, delete_bridge, deref, store, emit, bind, ret, raise;
  cbn [heap bus_list calls].

Ltac tidy :=
  repeat progress
    (cbn [heap bus_list calls loc_ bus_ config_ secondary_bus_ app];
     rewrite ?lookup_insert_eq, ?insert_insert_eq, <- ?app_assoc;
     fold p).

(** Feed one answer of a collaborator, or one decided test, to the run. *)
Ltac feed H :=
  lazymatch type of H with
  | _ <> _ => rewrite (proj2 (Z.eqb_neq _ _) H)
  | _ < _ => rewrite (proj2 (Z.ltb_lt _ _) H)
  | _ <= _ => rewrite (proj2 (Z.ltb_ge _ _) H)
  | sane_bus_range ?c = _ =>
      let H' := fresh in
      pose proof H as H'; unfold sane_bus_range in H'; rewrite H'; clear H';
      fold (secondary_location loc c)
  | _ => rewrite H
  end;
  cbn [negb Z.eqb NO_ERROR]; tidy.

Lemma probe_vendor_unreadable e v :
  pci_read_config_half env loc PCI_CONFIG_VENDOR_ID = (e, v) ->
  e <> NO_ERROR ->
  probe env loc parent_bus k =
    Done (ERR_NOT_FOUND, None)
      {| heap := heap k; bus_list := bus_list k;
         calls := calls k ++ [ev_read_config_half loc PCI_CONFIG_VENDOR_ID] |}.
Proof.
  intros Hv He. run. feed Hv. feed He. reflexivity.
Qed.

Lemma probe_vendor_absent e :
  pci_read_config_half env loc PCI_CONFIG_VENDOR_ID = (e, 0xffff) ->
  probe env loc parent_bus k =
    Done (ERR_NOT_FOUND, None)
      {| heap := heap k; bus_list := bus_list k;
         calls := calls k ++ [ev_read_config_half loc PCI_CONFIG_VENDOR_ID] |}.
Proof.
  intros Hv. run. rewrite Hv.
  destruct (e =? NO_ERROR); reflexivity.
Qed.

Section Present.

Variable v : Z.
Hypothesis Hvendor : pci_read_config_half env loc PCI_CONFIG_VENDOR_ID = (NO_ERROR, v).
Hypothesis Hpresent : v <> 0xffff.

Lemma probe_header_unreadable e h :
  pci_read_config_byte env loc PCI_CONFIG_HEADER_TYPE = (e, h) ->
  e <> NO_ERROR ->
  probe env loc parent_bus k =
    Done (ERR_NOT_FOUND, None)
      {| heap := heap k; bus_list := bus_list k;
         calls := calls k ++ [ev_read_config_half loc PCI_CONFIG_VENDOR_ID;
                              ev_read_config_byte loc PCI_CONFIG_HEADER_TYPE] |}.
Proof.
  intros Hh He. run. feed Hvendor. feed Hpresent. feed Hh. feed He.
  reflexivity.
Qed.

Section Classified.

Variable h : Z.
Hypothesis Hheader : pci_read_config_byte env loc PCI_CONFIG_HEADER_TYPE = (NO_ERROR, h).

Lemma probe_config_unreadable e c :
  pci_read_config env loc = (e, c) ->
  e < 0 ->
  probe env loc parent_bus k =
    Done (e, None)
      {| heap := heap k; bus_list := bus_list k;
         calls := calls k ++ [ev_read_config_half loc PCI_CONFIG_VENDOR_ID;
                              ev_read_config_byte loc PCI_CONFIG_HEADER_TYPE;
                              ev_new_bridge p;
                              ev_read_config loc p;
                              ev_delete_bridge p] |}.
Proof.
  intros Hc He. run. feed Hvendor. feed Hpresent. feed Hheader.
  feed Hc. feed He.
  rewrite delete_insert_id by apply fresh_unused. reflexivity.
Qed.

Section Configured.

Variable e : status_t.
Variable c : pci_config_t.
Hypothesis Hconfig : pci_read_config env loc = (e, c).
Hypothesis Hread : 0 <= e.

Lemma probe_leaf :
  sane_bus_range c = false ->
  probe env loc parent_bus k =
    Done (NO_ERROR, Some p)
      {| heap := <[p := object c None]> (heap k); bus_list := bus_list k;
         calls := calls k ++ [ev_read_config_half loc PCI_CONFIG_VENDOR_ID;
                              ev_read_config_byte loc PCI_CONFIG_HEADER_TYPE;
                              ev_new_bridge p;
                              ev_read_config loc p;
                              ev_probe_capabilities p] |}.
Proof.
  intros Hrange. run. feed Hvendor. feed Hpresent. feed Hheader.
  feed Hconfig. feed Hread. feed Hrange. reflexivity.
Qed.

Section Downstream.

Hypothesis Hrange : sane_bus_range c = true.

Lemma probe_downstream_failed e' nb :
  bus_probe env (secondary_location loc c) p = (e', nb) ->
  e' < 0 ->
  probe env loc parent_bus k =
    Done (e', Some p)
      {| heap := <[p := object c None]> (heap k); bus_list := bus_list k;
         calls := calls k ++ [ev_read_config_half loc PCI_CONFIG_VENDOR_ID;
                              ev_read_config_byte loc PCI_CONFIG_HEADER_TYPE;
                              ev_new_bridge p;
                              ev_read_config loc p;
                              ev_probe_capabilities p;
                              ev_bus_probe (secondary_location loc c) p] |}.
Proof.
  intros Hscan He'. run. feed Hvendor. feed Hpresent. feed Hheader.
  feed Hconfig. feed Hread. feed Hrange. feed Hscan. feed He'.
  reflexivity.
Qed.

Lemma probe_downstream_null e' :
  bus_probe env (secondary_location loc c) p = (e', None) ->
  0 <= e' ->
  probe env loc parent_bus k =
    Fault assertion_failed
      {| heap := <[p := object c None]> (heap k); bus_list := bus_list k;
         calls := calls k ++ [ev_read_config_half loc PCI_CONFIG_VENDOR_ID;
                              ev_read_config_byte loc PCI_CONFIG_HEADER_TYPE;
                              ev_new_bridge p;
                              ev_read_config loc p;
                              ev_probe_capabilities p;
                              ev_bus_probe (secondary_location loc c) p] |}.
Proof.
  intros Hscan He'. run. feed Hvendor. feed Hpresent. feed Hheader.
  feed Hconfig. feed Hread. feed Hrange. feed Hscan. feed He'.
  reflexivity.
Qed.

Lemma probe_downstream_linked e' new_bus :
  bus_probe env (secondary_location loc c) p = (e', Some new_bus) ->
  0 <= e' ->
  probe env loc parent_bus k =
    Done (NO_ERROR, Some p)
      {| heap := <[p := object c (Some new_bus)]> (heap k);
         bus_list := bus_list k ++ [new_bus];
         calls := calls k ++ [ev_read_config_half loc PCI_CONFIG_VENDOR_ID;
                              ev_read_config_byte loc PCI_CONFIG_HEADER_TYPE;
                              ev_new_bridge p;
                              ev_read_config loc p;
                              ev_probe_capabilities p;
                              ev_bus_probe (secondary_location loc c) p;
                              ev_add_bus p new_bus;
                              ev_add_to_global_list new_bus] |}.
Proof.
  intros Hscan He'. run. feed Hvendor. feed Hpresent. feed Hheader.
  feed Hconfig. feed Hread. feed Hrange. feed Hscan. feed He'.
  reflexivity.
Qed.

End Downstream.
End Configured.
End Classified.
End Present.

(** [probe] always ends in one of the runs of [probe_run]: it is total, and
    nothing else can happen. *)
Lemma probe_runs : probe_run env loc parent_bus k (probe env loc parent_bus k).
Proof.
  destruct (pci_read_config_half env loc PCI_CONFIG_VENDOR_ID) as [e1 v] eqn:Hv.
  destruct (Z.eq_dec e1 NO_ERROR) as [->|He1].
  2: { rewrite (probe_vendor_unreadable _ _ Hv He1). constructor. now left. }
  destruct (Z.eq_dec v 0xffff) as [->|Hp].
  { rewrite (probe_vendor_absent _ Hv). constructor. now left. }
  destruct (pci_read_config_byte env loc PCI_CONFIG_HEADER_TYPE) as [e2 h] eqn:Hh.
  destruct (Z.eq_dec e2 NO_ERROR) as [->|He2].
  2: { rewrite (probe_header_unreadable _ Hv Hp _ _ Hh He2). constructor. now right. }
  destruct (pci_read_config env loc) as [e3 c] eqn:Hc.
  destruct (Z.lt_ge_cases e3 0) as [He3|He3].
  { rewrite (probe_config_unreadable _ Hv Hp _ Hh _ _ Hc He3).
    constructor; [reflexivity | now rewrite Hc | assumption]. }
  destruct (sane_bus_range c) eqn:Hr.
  2: { rewrite (probe_leaf _ Hv Hp _ Hh _ _ Hc He3 Hr). now apply run_leaf with e3. }
  destruct (bus_probe env (secondary_location loc c) p) as [e4 nb] eqn:Hs.
  destruct (Z.lt_ge_cases e4 0) as [He4|He4].
  { rewrite (probe_downstream_failed _ Hv Hp _ Hh _ _ Hc He3 Hr _ _ Hs He4).
    apply run_downstream_failed with e3; try easy. fold p. now rewrite Hs. }
  destruct nb as [new_bus|].
  - rewrite (probe_downstream_linked _ Hv Hp _ Hh _ _ Hc He3 Hr _ _ Hs He4).
    now apply run_downstream_linked with e3 e4.
  - rewrite (probe_downstream_null _ Hv Hp _ Hh _ _ Hc He3 Hr _ Hs He4).
    now apply run_downstream_null with e3 e4.
Qed.

End ProbeRun.

(** * Properties of [bridge::probe] *)

Section ProbeClaims.

Variable env : collaborators.
Variable loc : pci_location_t.
Variable parent_bus : option bus_ptr.
Variable k : kernel.

Let p : bridge_ptr := fresh (dom (heap k)).

(** C6. When the vendor-id read fails, or reads as all-ones, [probe] returns
    [ERR_NOT_FOUND] with [*out_bridge] null; the heap is as it was, so no
    bridge was allocated, and the vendor-id read is the only call made: no
    further register is read. *)
Theorem absent_device_not_found :
  fst (pci_read_config_half env loc PCI_CONFIG_VENDOR_ID) <> NO_ERROR \/
  snd (pci_read_config_half env loc PCI_CONFIG_VENDOR_ID) = 0xffff ->
  probe env loc parent_bus k =
    Done (ERR_NOT_FOUND, None)
      {| heap := heap k; bus_list := bus_list k;
         calls := calls k ++ [ev_read_config_half loc PCI_CONFIG_VENDOR_ID] |}.
Proof.
  destruct (pci_read_config_half env loc PCI_CONFIG_VENDOR_ID) as [e v] eqn:Hv.
  cbn [fst snd]. intros [He | ->].
  - exact (probe_vendor_unreadable env loc parent_bus k e v Hv He).
  - exact (probe_vendor_absent env loc parent_bus k e Hv).
Qed.

(** C7. When the full configuration read of the freshly allocated bridge
    fails, [probe] deletes that bridge, returns the read's error status and
    leaves [*out_bridge] null; and whenever [probe] returns a bridge, the
    full configuration read succeeded and the bridge holds its snapshot. *)
Theorem failed_config_read_discards_bridge :
  (forall v h e c,
     pci_read_config_half env loc PCI_CONFIG_VENDOR_ID = (NO_ERROR, v) ->
     v <> 0xffff ->
     pci_read_config_byte env loc PCI_CONFIG_HEADER_TYPE = (NO_ERROR, h) ->
     pci_read_config env loc = (e, c) ->
     e < 0 ->
     probe env loc parent_bus k =
       Done (e, None)
         {| heap := heap k; bus_list := bus_list k;
            calls := calls k ++ [ev_read_config_half loc PCI_CONFIG_VENDOR_ID;
                                 ev_read_config_byte loc PCI_CONFIG_HEADER_TYPE;
                                 ev_new_bridge p;
                                 ev_read_config loc p;
                                 ev_delete_bridge p] |}) /\
  (forall st q k',
     probe env loc parent_bus k = Done (st, Some q) k' ->
     0 <= fst (pci_read_config env loc) /\
     exists b, heap k' !! q = Some b /\ config_ b = snd (pci_read_config env loc)).
Proof.
  split.
  - intros v h e c Hv Hp Hh Hc He.
    exact (probe_config_unreadable env loc parent_bus k v Hv Hp h Hh e c Hc He).
  - intros st q k' Hrun.
    pose proof (probe_runs env loc parent_bus k) as R. rewrite Hrun in R.
    inversion R as [ | | q' e c Hq Hc He Hr | q' e c e' Hq Hc He Hr Hs He'
                   | | q' e c e' nb Hq Hc He Hr Hs He' ];
      subst; rewrite Hc; cbn [fst snd heap]; (split; [assumption|]);
      eexists; (split; [apply lookup_insert_eq | reflexivity]).
Qed.

(** C1. When the full configuration read succeeds and the scan of the
    secondary bus then fails, [probe] returns the scan's failure status while
    [*out_bridge] already points to the bridge: it lives in the heap, holds
    the complete snapshot, and its decoders yield the ranges of that
    snapshot. *)
Theorem downstream_failure_keeps_bridge (v h : Z) (e : status_t) (c : pci_config_t)
    (e' : status_t) (nb : option bus_ptr) :
  pci_read_config_half env loc PCI_CONFIG_VENDOR_ID = (NO_ERROR, v) ->
  v <> 0xffff ->
  pci_read_config_byte env loc PCI_CONFIG_HEADER_TYPE = (NO_ERROR, h) ->
  pci_read_config env loc = (e, c) ->
  0 <= e ->
  sane_bus_range c = true ->
  bus_probe env (secondary_location loc c) p = (e', nb) ->
  e' < 0 ->
  exists k' b,
    probe env loc parent_bus k = Done (e', Some p) k' /\
    e' <> NO_ERROR /\
    heap k' !! p = Some b /\
    config_ b = c /\
    io_range b = io_range (bridge_at loc c) /\
    mem_range b = mem_range (bridge_at loc c) /\
    prefetch_range b = prefetch_range (bridge_at loc c).
Proof.
  intros Hv Hp Hh Hc He Hr Hs He'.
  eexists. eexists. split.
  - exact (probe_downstream_failed env loc parent_bus k v Hv Hp h Hh e c Hc He Hr
             e' nb Hs He').
  - split; [unfold NO_ERROR; lia|].
    split; [apply lookup_insert_eq|].
    repeat split.
Qed.

(** C9. In a run whose downstream recursion succeeds, the calls [probe]
    makes are, in this order: the two short reads, the allocation, the full
    configuration read, the capability probe, the probe of the secondary
    bus, the attachment of the returned bus to the bridge, and its
    registration in the global bus list.  Afterwards the bridge points to
    that bus, and the bus is the last entry of the global bus list. *)
Theorem downstream_calls_in_order (v h : Z) (e : status_t) (c : pci_config_t)
    (e' : status_t) (new_bus : bus_ptr) :
  pci_read_config_half env loc PCI_CONFIG_VENDOR_ID = (NO_ERROR, v) ->
  v <> 0xffff ->
  pci_read_config_byte env loc PCI_CONFIG_HEADER_TYPE = (NO_ERROR, h) ->
  pci_read_config env loc = (e, c) ->
  0 <= e ->
  sane_bus_range c = true ->
  bus_probe env (secondary_location loc c) p = (e', Some new_bus) ->
  0 <= e' ->
  exists k',
    probe env loc parent_bus k = Done (NO_ERROR, Some p) k' /\
    calls k' = calls k ++ [ev_read_config_half loc PCI_CONFIG_VENDOR_ID;
                           ev_read_config_byte loc PCI_CONFIG_HEADER_TYPE;
                           ev_new_bridge p;
                           ev_read_config loc p;
                           ev_probe_capabilities p;
                           ev_bus_probe (secondary_location loc c) p;
                           ev_add_bus p new_bus;
                           ev_add_to_global_list new_bus] /\
    (exists earlier, bus_list k' = earlier ++ [new_bus]) /\
    (secondary_bus_ <$> heap k' !! p) = Some (Some new_bus).
Proof.
  intros Hv Hp Hh Hc He Hr Hs He'.
  eexists. split.
  - exact (probe_downstream_linked env loc parent_bus k v Hv Hp h Hh e c Hc He Hr
             e' new_bus Hs He').
  - cbn [calls bus_list heap]. rewrite lookup_insert_eq.
    split; [reflexivity|]. split; [|reflexivity].
    eexists. reflexivity.
Qed.

End ProbeClaims.

Section ProbeScenarios.

Variable env : collaborators.
Variable loc : pci_location_t.
Variable parent_bus : option bus_ptr.
Variable k : kernel.

Let p : bridge_ptr := fresh (dom (heap k)).

Lemma sane_bus_range_spec (c : pci_config_t) :
  sane_bus_range c = true <->
  0 < secondary_bus (type1 c) /\ secondary_bus (type1 c) <= subordinate_bus (type1 c).
Proof.
  unfold sane_bus_range. rewrite andb_true_iff, Z.ltb_lt, Z.leb_le. tauto.
Qed.

(** C8. Whenever [probe] returns a bridge, a probe of a downstream bus
    among its calls, or a non-null secondary-bus reference in the bridge,
    means that the secondary bus number is positive and the subordinate bus
    number is not below it.  With secondary bus 0, [probe] succeeds, makes no
    downstream probe, and the secondary-bus reference stays null. *)
Theorem downstream_needs_sane_bus_range :
  (forall st q k',
     probe env loc parent_bus k = Done (st, Some q) k' ->
     exists b es,
       heap k' !! q = Some b /\
       calls k' = calls k ++ es /\
       ((exists bl r, In (ev_bus_probe bl r) es) \/ secondary_bus_ b <> None ->
        0 < secondary_bus (type1 (config_ b)) /\
        secondary_bus (type1 (config_ b)) <= subordinate_bus (type1 (config_ b)))) /\
  (forall v h e c,
     pci_read_config_half env loc PCI_CONFIG_VENDOR_ID = (NO_ERROR, v) ->
     v <> 0xffff ->
     pci_read_config_byte env loc PCI_CONFIG_HEADER_TYPE = (NO_ERROR, h) ->
     pci_read_config env loc = (e, c) ->
     0 <= e ->
     secondary_bus (type1 c) = 0 ->
     exists k' es,
       probe env loc parent_bus k = Done (NO_ERROR, Some p) k' /\
       heap k' !! p =
         Some {| loc_ := loc; bus_ := parent_bus; config_ := c;
                 secondary_bus_ := None |} /\
       bus_list k' = bus_list k /\
       calls k' = calls k ++ es /\
       forall bl r, ~ In (ev_bus_probe bl r) es).
Proof.
  split.
  - intros st q k' Hrun.
    pose proof (probe_runs env loc parent_bus k) as R. rewrite Hrun in R.
    inversion R as [ | | q' e c Hq Hc He Hr | q' e c e' Hq Hc He Hr Hs He'
                   | | q' e c e' nb Hq Hc He Hr Hs He' ];
      subst; eexists; eexists;
      (split; [apply lookup_insert_eq|]); (split; [reflexivity|]);
      cbn [config_ secondary_bus_].
    + intros [(bl & r & Hin) | Hnn]; [|congruence].
      cbn [In] in Hin. intuition discriminate.
    + intros _. now apply sane_bus_range_spec.
    + intros _. now apply sane_bus_range_spec.
  - intros v h e c Hv Hp Hh Hc He Hsec.
    assert (Hr : sane_bus_range c = false).
    { unfold sane_bus_range. rewrite Hsec. reflexivity. }
    eexists. eexists. split.
    + exact (probe_leaf env loc parent_bus k v Hv Hp h Hh e c Hc He Hr).
    + cbn [heap bus_list calls].
      split; [apply lookup_insert_eq|].
      split; [reflexivity|]. split; [reflexivity|].
      intros bl r Hin. cbn [In] in Hin. intuition discriminate.
Qed.

(** C5, as amended. With vendor id 0x8086, header type 1, secondary bus 2,
    subordinate bus 5 and every window base and limit register zero, [probe]
    probes bus 2 downstream and, when that scan succeeds, returns [NO_ERROR]
    with the bridge published and linked to the new bus; the decoded ranges
    of the bridge are the smallest windows at address zero, I/O [{0, 0xfff}],
    memory [{0, 0xfffff}] and prefetchable [{0, 0xfffff}]. *)
Theorem scenario_A_probe (e : status_t) (c : pci_config_t)
    (e' : status_t) (new_bus : bus_ptr) :
  pci_read_config_half env loc PCI_CONFIG_VENDOR_ID = (NO_ERROR, 0x8086) ->
  pci_read_config_byte env loc PCI_CONFIG_HEADER_TYPE = (NO_ERROR, 1) ->
  pci_read_config env loc = (e, c) ->
  0 <= e ->
  secondary_bus (type1 c) = 2 ->
  subordinate_bus (type1 c) = 5 ->
  io_base (type1 c) = 0 -> io_limit (type1 c) = 0 ->
  memory_base (type1 c) = 0 -> memory_limit (type1 c) = 0 ->
  prefetchable_memory_base (type1 c) = 0 ->
  prefetchable_memory_limit (type1 c) = 0 ->
  bus_probe env {| segment := segment loc; bus := 2; dev := 0; fn := 0 |} p
    = (e', Some new_bus) ->
  0 <= e' ->
  exists k' b,
    probe env loc parent_bus k = Done (NO_ERROR, Some p) k' /\
    heap k' !! p = Some b /\
    config_ b = c /\
    secondary_bus_ b = Some new_bus /\
    io_range b = {| base := 0; limit := 0xfff |} /\
    mem_range b = {| base := 0; limit := 0xfffff |} /\
    prefetch_range b = {| base := 0; limit := 0xfffff |} /\
    calls k' =
      calls k ++ [ev_read_config_half loc PCI_CONFIG_VENDOR_ID;
                  ev_read_config_byte loc PCI_CONFIG_HEADER_TYPE;
                  ev_new_bridge p;
                  ev_read_config loc p;
                  ev_probe_capabilities p;
                  ev_bus_probe {| segment := segment loc; bus := 2; dev := 0; fn := 0 |} p;
                  ev_add_bus p new_bus;
                  ev_add_to_global_list new_bus].
Proof.
  intros Hv Hh Hc He Hsec Hsub Hib Hil Hmb Hml Hpb Hpl Hs He'.
  assert (Hr : sane_bus_range c = true).
  { unfold sane_bus_range. rewrite Hsec, Hsub. reflexivity. }
  assert (Hl : secondary_location loc c =
               {| segment := segment loc; bus := 2; dev := 0; fn := 0 |}).
  { unfold secondary_location. rewrite Hsec. reflexivity. }
  rewrite <- Hl in Hs |- *.
  eexists. eexists. split.
  - refine (probe_downstream_linked env loc parent_bus k 0x8086 Hv _ 1 Hh e c Hc He Hr
              e' new_bus Hs He'). discriminate.
  - cbn [heap calls]. split; [apply lookup_insert_eq|].
    split; [reflexivity|]. split; [reflexivity|].
    unfold io_range, mem_range, prefetch_range. cbn [config_].
    rewrite Hib, Hil, Hmb, Hml, Hpb, Hpl.
    repeat split.
Qed.

End ProbeScenarios.

(** ** [probe] on the sample collaborators *)

Lemma absent_device_not_found_witness :
  probe empty_slot_env sample_loc None boot =
    Done (ERR_NOT_FOUND, None)
      {| heap := ∅; bus_list := [];
         calls := [ev_read_config_half sample_loc PCI_CONFIG_VENDOR_ID] |}.
Proof.
  apply (absent_device_not_found empty_slot_env sample_loc None boot).
  right. reflexivity.
Defined.

Lemma failed_config_read_discards_bridge_witness :
  probe unreadable_env sample_loc None boot =
    Done (-20, None)
      {| heap := ∅; bus_list := [];
         calls := [ev_read_config_half sample_loc PCI_CONFIG_VENDOR_ID;
                   ev_read_config_byte sample_loc PCI_CONFIG_HEADER_TYPE;
                   ev_new_bridge 0%nat;
                   ev_read_config sample_loc 0%nat;
                   ev_delete_bridge 0%nat] |}.
Proof.
  apply (proj1 (failed_config_read_discards_bridge unreadable_env sample_loc None boot)
           0x8086 1 (-20) zero_config);
    [reflexivity | discriminate | reflexivity | reflexivity | reflexivity].
Defined.

Lemma downstream_failure_keeps_bridge_witness :
  exists k' b,
    probe (scenario_env 2 (-20, None)) sample_loc None boot = Done (-20, Some 0%nat) k' /\
    -20 <> NO_ERROR /\
    heap k' !! 0%nat = Some b /\
    config_ b = scenario_config 2 /\
    io_range b = io_range (bridge_at sample_loc (scenario_config 2)) /\
    mem_range b = mem_range (bridge_at sample_loc (scenario_config 2)) /\
    prefetch_range b = prefetch_range (bridge_at sample_loc (scenario_config 2)).
Proof.
  apply (downstream_failure_keeps_bridge (scenario_env 2 (-20, None)) sample_loc None boot
           0x8086 1 NO_ERROR (scenario_config 2) (-20) None);
    [reflexivity | discriminate | reflexivity | reflexivity | discriminate
    | reflexivity | reflexivity | reflexivity].
Defined.

Lemma downstream_calls_in_order_witness :
  exists k',
    probe (scenario_env 2 (NO_ERROR, Some 7%nat)) sample_loc None boot
      = Done (NO_ERROR, Some 0%nat) k' /\
    calls k' = [ev_read_config_half sample_loc PCI_CONFIG_VENDOR_ID;
                ev_read_config_byte sample_loc PCI_CONFIG_HEADER_TYPE;
                ev_new_bridge 0%nat;
                ev_read_config sample_loc 0%nat;
                ev_probe_capabilities 0%nat;
                ev_bus_probe {| segment := 0; bus := 2; dev := 0; fn := 0 |} 0%nat;
                ev_add_bus 0%nat 7%nat;
                ev_add_to_global_list 7%nat] /\
    (exists earlier, bus_list k' = earlier ++ [7%nat]) /\
    (secondary_bus_ <$> heap k' !! 0%nat) = Some (Some 7%nat).
Proof.
  apply (downstream_calls_in_order (scenario_env 2 (NO_ERROR, Some 7%nat)) sample_loc None
           boot 0x8086 1 NO_ERROR (scenario_config 2) NO_ERROR 7%nat);
    [reflexivity | discriminate | reflexivity | reflexivity | discriminate
    | reflexivity | reflexivity | discriminate].
Defined.

Lemma downstream_needs_sane_bus_range_witness :
  exists k' es,
    probe (scenario_env 0 (NO_ERROR, Some 7%nat)) sample_loc None boot
      = Done (NO_ERROR, Some 0%nat) k' /\
    heap k' !! 0%nat =
      Some {| loc_ := sample_loc; bus_ := None; config_ := scenario_config 0;
              secondary_bus_ := None |} /\
    bus_list k' = [] /\
    calls k' = es /\
    forall bl r, ~ In (ev_bus_probe bl r) es.
Proof.
  apply (proj2 (downstream_needs_sane_bus_range (scenario_env 0 (NO_ERROR, Some 7%nat))
                  sample_loc None boot)
           0x8086 1 NO_ERROR (scenario_config 0));
    [reflexivity | discriminate | reflexivity | reflexivity | discriminate | reflexivity].
Defined.

Lemma scenario_A_probe_witness :
  exists k' b,
    probe (scenario_env 2 (NO_ERROR, Some 7%nat)) sample_loc None boot
      = Done (NO_ERROR, Some 0%nat) k' /\
    heap k' !! 0%nat = Some b /\
    config_ b = scenario_config 2 /\
    secondary_bus_ b = Some 7%nat /\
    io_range b = {| base := 0; limit := 0xfff |} /\
    mem_range b = {| base := 0; limit := 0xfffff |} /\
    prefetch_range b = {| base := 0; limit := 0xfffff |} /\
    calls k' = [ev_read_config_half sample_loc PCI_CONFIG_VENDOR_ID;
                ev_read_config_byte sample_loc PCI_CONFIG_HEADER_TYPE;
                ev_new_bridge 0%nat;
                ev_read_config sample_loc 0%nat;
                ev_probe_capabilities 0%nat;
                ev_bus_probe {| segment := 0; bus := 2; dev := 0; fn := 0 |} 0%nat;
                ev_add_bus 0%nat 7%nat;
                ev_add_to_global_list 7%nat].
Proof.
  apply (scenario_A_probe (scenario_env 2 (NO_ERROR, Some 7%nat)) sample_loc None boot
           NO_ERROR (scenario_config 2) NO_ERROR 7%nat);
    try reflexivity; discriminate.
Defined.

(** C5 as first stated fails.  On the registers of scenario A, with a scan of
    bus 2 that succeeds, [probe] succeeds, yet no decoded range of the
    published bridge is the empty range: zero base and limit fields are not a
    limit below the base.  With a scan of bus 2 that fails, [probe] does not
    succeed. *)
Lemma scenario_A_as_stated_fails :
  (exists k' b,
     probe (scenario_env 2 (NO_ERROR, Some 7%nat)) sample_loc None boot
       = Done (NO_ERROR, Some 0%nat) k' /\
     heap k' !! 0%nat = Some b /\
     io_range b = {| base := 0; limit := 0xfff |} /\
     mem_range b = {| base := 0; limit := 0xfffff |} /\
     prefetch_range b = {| base := 0; limit := 0xfffff |} /\
     io_range b <> empty_range /\
     mem_range b <> empty_range /\
     prefetch_range b <> empty_range) /\
  (exists k',
     probe (scenario_env 2 (-20, None)) sample_loc None boot
       = Done (-20, Some 0%nat) k' /\
     -20 <> NO_ERROR).
Proof.
  split.
  - exists (final (probe (scenario_env 2 (NO_ERROR, Some 7%nat)) sample_loc None boot)).
    exists {| loc_ := sample_loc; bus_ := None; config_ := scenario_config 2;
              secondary_bus_ := Some 7%nat |}.
    split; [vm_compute; reflexivity|].
    split; [vm_compute; reflexivity|].
    repeat split; discriminate.
  - exists (final (probe (scenario_env 2 (-20, None)) sample_loc None boot)).
    split; [vm_compute; reflexivity | discriminate].
Qed.

(** * Further properties of the decoders *)

Section DecoderFacts.

Variable this : bridge.
Let t := type1 (config_ this).

(** X1. Each decoder returns [{0, 0}] exactly when the raw limit field is
    below the raw base field: a window that is claimed never decodes to the
    empty range. *)
Theorem empty_range_iff_degenerate :
  config_ok (config_ this) = true ->
  (io_range this = empty_range <-> io_limit t < io_base t) /\
  (mem_range this = empty_range <-> memory_limit t < memory_base t) /\
  (prefetch_range this = empty_range <->
     prefetchable_memory_limit t < prefetchable_memory_base t).
Proof.
  intros Hok.
  destruct (config_ok_bounds this Hok)
    as (_ & _ & Hib & Hil & Hmb & Hml & Hpb & Hpl & Hbu & Hlu).
  fold t in Hib, Hil, Hmb, Hml, Hpb, Hpl, Hbu, Hlu.
  split; [|split]; split.
  - intros H. destruct (Z.lt_ge_cases (io_limit t) (io_base t)) as [|Hle]; [assumption|].
    rewrite io_range_closed in H by assumption. fold t in H.
    apply (f_equal limit) in H. cbn [limit empty_range] in H.
    pose proof (nibble_dropped _ Hil). lia.
  - intros H. unfold io_range. fold t. apply Z.ltb_lt in H. rewrite H. reflexivity.
  - intros H.
    destruct (Z.lt_ge_cases (memory_limit t) (memory_base t)) as [|Hle]; [assumption|].
    rewrite mem_range_closed in H by assumption. fold t in H.
    apply (f_equal limit) in H. cbn [limit empty_range] in H.
    pose proof (nibble_dropped _ Hml). lia.
  - intros H. unfold mem_range. fold t. apply Z.ltb_lt in H. rewrite H. reflexivity.
  - intros H.
    destruct (Z.lt_ge_cases (prefetchable_memory_limit t) (prefetchable_memory_base t))
      as [|Hle]; [assumption|].
    rewrite prefetch_range_closed in H by assumption. fold t in H.
    apply (f_equal limit) in H. cbn [limit empty_range] in H.
    pose proof (nibble_dropped _ Hpl).
    destruct (Z.land (prefetchable_memory_base t) 15 =? 1); lia.
  - intros H. unfold prefetch_range. fold t. apply Z.ltb_lt in H. rewrite H. reflexivity.
Qed.

(** X2. The size of a decoded I/O window is a positive multiple of 4 KiB and
    that of a decoded memory window a positive multiple of 1 MiB: one granule
    for each step between the raw base and limit with their low nibbles
    dropped, both ends counted. *)
Theorem window_size_in_granules :
  config_ok (config_ this) = true ->
  (io_base t <= io_limit t ->
     limit (io_range this) - base (io_range this) + 1
       = (io_limit t / 16 - io_base t / 16 + 1) * 2 ^ 12 /\
     0 < io_limit t / 16 - io_base t / 16 + 1) /\
  (memory_base t <= memory_limit t ->
     limit (mem_range this) - base (mem_range this) + 1
       = (memory_limit t / 16 - memory_base t / 16 + 1) * 2 ^ 20 /\
     0 < memory_limit t / 16 - memory_base t / 16 + 1).
Proof.
  intros Hok. split; intros H.
  - rewrite io_range_closed by assumption. fold t. cbn [base limit].
    pose proof (Z.div_le_mono _ _ 16 ltac:(lia) H). lia.
  - rewrite mem_range_closed by assumption. fold t. cbn [base limit].
    pose proof (Z.div_le_mono _ _ 16 ltac:(lia) H). lia.
Qed.

(** X3. [prefetch_range] returns a limit below its base in one case only:
    the raw limit field is not below the raw base field, the low nibble of
    the base field is 1, and the limit-upper register is below the
    base-upper register. *)
Theorem prefetch_range_inverted_iff :
  config_ok (config_ this) = true ->
  limit (prefetch_range this) < base (prefetch_range this) <->
  prefetchable_memory_base t <= prefetchable_memory_limit t /\
  Z.land (prefetchable_memory_base t) 0xf = 1 /\
  prefetchable_limit_upper t < prefetchable_base_upper t.
Proof.
  intros Hok.
  destruct (config_ok_bounds this Hok) as (_ & _ & _ & _ & _ & _ & Hpb & Hpl & Hbu & Hlu).
  fold t in Hpb, Hpl, Hbu, Hlu.
  destruct (Z.lt_ge_cases (prefetchable_memory_limit t) (prefetchable_memory_base t))
    as [Hlt|Hle].
  - unfold prefetch_range. fold t. apply Z.ltb_lt in Hlt. rewrite Hlt.
    apply Z.ltb_lt in Hlt. cbn [base limit]. lia.
  - rewrite prefetch_range_closed by assumption. fold t. cbn [base limit].
    pose proof (low_part_bound _ Hpb). pose proof (low_part_bound _ Hpl).
    pose proof (Z.div_le_mono _ _ 16 ltac:(lia) Hle).
    destruct (Z.eqb_spec (Z.land (prefetchable_memory_base t) 0xf) 1); lia.
Qed.

(** X4. A prefetchable window in 32-bit mode (low nibble of the base field
    not 1) whose raw fields equal the memory window's raw fields decodes to
    the same range as [mem_range], whatever the extension registers hold. *)
Theorem prefetch_range_32bit_as_mem_range :
  config_ok (config_ this) = true ->
  Z.land (prefetchable_memory_base t) 0xf <> 1 ->
  prefetchable_memory_base t = memory_base t ->
  prefetchable_memory_limit t = memory_limit t ->
  prefetch_range this = mem_range this.
Proof.
  intros Hok Hn Hb Hl.
  destruct (Z.lt_ge_cases (memory_limit t) (memory_base t)) as [Hlt|Hle].
  - unfold prefetch_range, mem_range. fold t. rewrite Hb, Hl.
    apply Z.ltb_lt in Hlt. rewrite Hlt. reflexivity.
  - rewrite prefetch_range_closed, mem_range_closed by (try assumption; fold t; lia).
    fold t.
    apply Z.eqb_neq in Hn. rewrite Hn, Hb, Hl. f_equal; lia.
Qed.

End DecoderFacts.

Section DecoderPairs.

Variables this that : bridge.
Let t := type1 (config_ this).
Let u := type1 (config_ that).

(** X5. Widening a window in the raw fields widens it in the decoded range:
    with a raw base not above and a raw limit not below those of a claimed
    window, [io_range] and [mem_range] return a range that contains the
    decoded window. *)
Theorem io_mem_windows_monotone :
  config_ok (config_ this) = true ->
  config_ok (config_ that) = true ->
  (io_base u <= io_base t -> io_base t <= io_limit t -> io_limit t <= io_limit u ->
     base (io_range that) <= base (io_range this) /\
     limit (io_range this) <= limit (io_range that)) /\
  (memory_base u <= memory_base t -> memory_base t <= memory_limit t ->
   memory_limit t <= memory_limit u ->
     base (mem_range that) <= base (mem_range this) /\
     limit (mem_range this) <= limit (mem_range that)).
Proof.
  intros Hok Hok'. split; intros Hb Hw Hl.
  - rewrite (io_range_closed this), (io_range_closed that) by (try assumption; fold t u; lia).
    fold t u. cbn [base limit].
    pose proof (Z.div_le_mono _ _ 16 ltac:(lia) Hb).
    pose proof (Z.div_le_mono _ _ 16 ltac:(lia) Hl). lia.
  - rewrite (mem_range_closed this), (mem_range_closed that) by (try assumption; fold t u; lia).
    fold t u. cbn [base limit].
    pose proof (Z.div_le_mono _ _ 16 ltac:(lia) Hb).
    pose proof (Z.div_le_mono _ _ 16 ltac:(lia) Hl). lia.
Qed.

(** X6. Once a window is claimed, the low nibbles of its raw fields do not
    reach the decoded range: two claimed I/O (memory) windows whose raw base
    fields agree above the low nibble, and whose raw limit fields do,
    decode to the same range. *)
Theorem low_nibbles_do_not_reach_the_range :
  config_ok (config_ this) = true ->
  config_ok (config_ that) = true ->
  (io_base t <= io_limit t -> io_base u <= io_limit u ->
   Z.shiftr (io_base t) 4 = Z.shiftr (io_base u) 4 ->
   Z.shiftr (io_limit t) 4 = Z.shiftr (io_limit u) 4 ->
     io_range this = io_range that) /\
  (memory_base t <= memory_limit t -> memory_base u <= memory_limit u ->
   Z.shiftr (memory_base t) 4 = Z.shiftr (memory_base u) 4 ->
   Z.shiftr (memory_limit t) 4 = Z.shiftr (memory_limit u) 4 ->
     mem_range this = mem_range that).
Proof.
  intros Hok Hok'. split; intros Hw Hw' Hb Hl.
  - rewrite !Z.shiftr_div_pow2 in Hb, Hl by lia. change (2 ^ 4) with 16 in Hb, Hl.
    rewrite (io_range_closed this), (io_range_closed that) by assumption.
    fold t u. rewrite Hb, Hl. reflexivity.
  - rewrite !Z.shiftr_div_pow2 in Hb, Hl by lia. change (2 ^ 4) with 16 in Hb, Hl.
    rewrite (mem_range_closed this), (mem_range_closed that) by assumption.
    fold t u. rewrite Hb, Hl. reflexivity.
Qed.

End DecoderPairs.

(** * Further properties of [bridge::probe] *)

(** Split on the run [probe] takes, given its outcome [H]. *)
Ltac probe_cases env loc parent_bus k H :=
  let R := fresh "R" in
  pose proof (probe_runs env loc parent_bus k) as R;
  rewrite H in R; inversion R; subst; clear R.

Section ProbeFacts.

Variable env : collaborators.
Variable loc : pci_location_t.
Variable parent_bus : option bus_ptr.
Variable k : kernel.

Let p : bridge_ptr := fresh (dom (heap k)).

(** X7. When the vendor-id read succeeds with a value other than 0xffff and
    the header-type read fails, [probe] returns [ERR_NOT_FOUND] with
    [*out_bridge] null after exactly those two reads, and allocates
    nothing. *)
Theorem unreadable_header_not_found :
  fst (pci_read_config_half env loc PCI_CONFIG_VENDOR_ID) = NO_ERROR ->
  snd (pci_read_config_half env loc PCI_CONFIG_VENDOR_ID) <> 0xffff ->
  fst (pci_read_config_byte env loc PCI_CONFIG_HEADER_TYPE) <> NO_ERROR ->
  probe env loc parent_bus k =
    Done (ERR_NOT_FOUND, None)
      {| heap := heap k; bus_list := bus_list k;
         calls := calls k ++ [ev_read_config_half loc PCI_CONFIG_VENDOR_ID;
                              ev_read_config_byte loc PCI_CONFIG_HEADER_TYPE] |}.
Proof.
  destruct (pci_read_config_half env loc PCI_CONFIG_VENDOR_ID) as [e v] eqn:Hv.
  destruct (pci_read_config_byte env loc PCI_CONFIG_HEADER_TYPE) as [e2 h] eqn:Hh.
  cbn [fst snd]. intros -> Hp He2.
  exact (probe_header_unreadable env loc parent_bus k v Hv Hp e2 h Hh He2).
Qed.

(** X8. [probe] never looks at the header type it reads: replacing the
    value of the header-type register by any other changes neither the
    result nor the state [probe] leaves. *)
Theorem header_type_is_not_checked (h : Z) :
  probe (with_header_type env h) loc parent_bus k = probe env loc parent_bus k.
Proof.
  unfold probe, read_config_half, read_config_byte, read_config, scan_bus, bind, ret.
  cbn [with_header_type pci_read_config_half pci_read_config_byte pci_read_config
         bus_probe].
  destruct (emit (ev_read_config_half loc PCI_CONFIG_VENDOR_ID) k) as [[] k1|]; [|reflexivity].
  destruct (pci_read_config_half env loc PCI_CONFIG_VENDOR_ID) as [e v].
  destruct (negb (e =? NO_ERROR)); [reflexivity|].
  destruct (v =? 65535); [reflexivity|].
  destruct (emit (ev_read_config_byte loc PCI_CONFIG_HEADER_TYPE) k1) as [[] k2|];
    [|reflexivity].
  destruct (pci_read_config_byte env loc PCI_CONFIG_HEADER_TYPE) as [e2 h2].
  reflexivity.
Qed.

(** X9. The status [probe] returns is never positive, even when a
    collaborator answers with a positive status; [NO_ERROR] always comes
    with a bridge, a null [*out_bridge] always with a negative status, and a
    bridge handed back is the one allocated by this call. *)
Theorem probe_status_and_bridge (st : status_t) (out : option bridge_ptr) (k' : kernel) :
  probe env loc parent_bus k = Done (st, out) k' ->
  st <= 0 /\
  (st = NO_ERROR -> out = Some p) /\
  (out = None -> st < 0) /\
  (out = None \/ out = Some p).
Proof.
  intros H. probe_cases env loc parent_bus k H; unfold ERR_NOT_FOUND, NO_ERROR;
    repeat split; (lia || auto || discriminate || idtac).
Qed.

(** X10. A [probe] that hands back no bridge leaves the heap and the global
    bus list exactly as they were: nothing is leaked, nothing registered. *)
Theorem no_bridge_no_trace (st : status_t) (k' : kernel) :
  probe env loc parent_bus k = Done (st, None) k' ->
  heap k' = heap k /\ bus_list k' = bus_list k.
Proof.
  intros H. probe_cases env loc parent_bus k H; split; reflexivity.
Qed.

(** Bridges in the heap before a [probe] are in it afterwards. *)
Lemma probe_keeps_objects (q : bridge_ptr) (b : bridge) :
  heap k !! q = Some b ->
  heap (final (probe env loc parent_bus k)) !! q = Some b.
Proof.
  intros Hq.
  assert (Hne : fresh (dom (heap k)) <> q).
  { intros Heq. rewrite <- Heq in Hq.
    pose proof (fresh_unused k) as Hfresh. cbv zeta in Hfresh.
    unfold bridge_ptr in *. congruence. }
  pose proof (probe_runs env loc parent_bus k) as R.
  inversion R; subst; cbn [final heap];
    rewrite ?lookup_insert_ne by assumption; assumption.
Qed.

(** X11. Whatever way [probe] ends, every bridge that was in the heap
    before is still there, unchanged, and the global bus list and the call
    log have only grown at their ends: what they held before is a prefix of
    what they hold afterwards. *)
Theorem probe_preserves_existing_state :
  let k' := final (probe env loc parent_bus k) in
  (forall q b, heap k !! q = Some b -> heap k' !! q = Some b) /\
  (exists buses, bus_list k' = bus_list k ++ buses) /\
  (exists es, calls k' = calls k ++ es).
Proof.
  split; [exact probe_keeps_objects|].
  pose proof (probe_runs env loc parent_bus k) as R.
  inversion R; subst; cbn [final heap bus_list calls];
    (split; [| eexists; reflexivity]).
  all: first [ exists []; rewrite app_nil_r; reflexivity
             | eexists; reflexivity ].
Qed.

(** X12. A bridge handed back by [probe] is bound to the probed location
    and to the parent bus given.  When its secondary-bus reference is not
    null, [probe] has returned [NO_ERROR] and the bus it points to is the
    last entry of the global bus list. *)
Theorem published_bridge_identity (st : status_t) (q : bridge_ptr) (k' : kernel) :
  probe env loc parent_bus k = Done (st, Some q) k' ->
  exists b,
    heap k' !! q = Some b /\
    loc_ b = loc /\
    bus_ b = parent_bus /\
    (forall new_bus, secondary_bus_ b = Some new_bus ->
       st = NO_ERROR /\ exists earlier, bus_list k' = earlier ++ [new_bus]).
Proof.
  intros H. probe_cases env loc parent_bus k H; eexists;
    (split; [apply lookup_insert_eq|]);
    cbn [loc_ bus_ secondary_bus_ bus_list];
    (split; [reflexivity|]); (split; [reflexivity|]);
    intros nb Hnb; try discriminate.
  injection Hnb as <-. split; [reflexivity|]. eexists. reflexivity.
Qed.


(** X14. Every probe of a downstream bus that [probe] starts is for the
    segment of the probed location, the secondary bus number of the snapshot
    just read, device 0 and function 0, with the bridge allocated by this
    call as parent; and there is at most one. *)
Theorem downstream_probe_arguments (es : list event) :
  calls (final (probe env loc parent_bus k)) = calls k ++ es ->
  (forall bl r, In (ev_bus_probe bl r) es ->
     r = p /\
     bl = {| segment := segment loc;
             bus := secondary_bus (type1 (snd (pci_read_config env loc)));
             dev := 0; fn := 0 |} /\
     0 <= fst (pci_read_config env loc)) /\
  (length (List.filter is_bus_probe es) <= 1)%nat.
Proof.
  intros Hes.
  pose proof (probe_runs env loc parent_bus k) as R.
  inversion R as [ es0 Hes0 | | | | | ]; subst;
    match goal with E : _ = probe _ _ _ _ |- _ => rewrite <- E in Hes end;
    cbn [final calls] in Hes; apply app_inv_head in Hes; subst es.
  - destruct Hes0 as [-> | ->]; (split; [|cbn; lia]);
      intros bl r Hin; cbn [In] in Hin; intuition discriminate.
  - (split; [|cbn; lia]); intros bl r Hin; cbn [In] in Hin; intuition discriminate.
  - (split; [|cbn; lia]); intros bl r Hin; cbn [In] in Hin; intuition discriminate.
  - (split; [|cbn; lia]); intros bl r Hin; cbn [In] in Hin.
    match goal with Hc : pci_read_config _ _ = _ |- _ => rewrite Hc end.
    cbn [fst snd].
    repeat (destruct Hin as [Hin|Hin]; try discriminate); [|contradiction].
    injection Hin as <- <-. repeat split. assumption.
  - (split; [|cbn; lia]); intros bl r Hin; cbn [In] in Hin.
    match goal with Hc : pci_read_config _ _ = _ |- _ => rewrite Hc end.
    cbn [fst snd].
    repeat (destruct Hin as [Hin|Hin]; try discriminate); [|contradiction].
    injection Hin as <- <-. repeat split. assumption.
  - (split; [|cbn; lia]); intros bl r Hin; cbn [In] in Hin.
    match goal with Hc : pci_read_config _ _ = _ |- _ => rewrite Hc end.
    cbn [fst snd].
    repeat (destruct Hin as [Hin|Hin]; try discriminate); [|contradiction].
    injection Hin as <- <-. repeat split. assumption.
Qed.

End ProbeFacts.

(** X15. Two probes in a row never hand back the same bridge, and the
    second leaves the bridge of the first as the first left it, whatever way
    the second ends. *)
Theorem successive_probes_do_not_collide
    (env env' : collaborators) (loc loc' : pci_location_t)
    (parent_bus parent_bus' : option bus_ptr) (k k1 : kernel)
    (st : status_t) (q : bridge_ptr) :
  probe env loc parent_bus k = Done (st, Some q) k1 ->
  let o := probe env' loc' parent_bus' k1 in
  is_Some (heap k1 !! q) /\
  heap (final o) !! q = heap k1 !! q /\
  (forall st' q' k2, o = Done (st', Some q') k2 -> q' <> q).
Proof.
  intros H o.
  assert (Hq : is_Some (heap k1 !! q)).
  { probe_cases env loc parent_bus k H; cbn [heap];
      rewrite lookup_insert_eq; eexists; reflexivity. }
  destruct Hq as [b Hb].
  split; [eexists; exact Hb|].
  split.
  - rewrite Hb. apply probe_keeps_objects. exact Hb.
  - intros st' q' k2 Ho. subst o.
    assert (q' = fresh (dom (heap k1))) as ->.
    { probe_cases env' loc' parent_bus' k1 Ho; reflexivity. }
    intros Heq. pose proof (fresh_unused k1) as Hfresh. cbv zeta in Hfresh.
    unfold bridge_ptr in *. congruence.
Qed.

Section ProbeBalance.

Variable env : collaborators.
Variable loc : pci_location_t.
Variable parent_bus : option bus_ptr.
Variable k : kernel.

Let p : bridge_ptr := fresh (dom (heap k)).

(** Find an event in an explicit list. *)
Ltac find_event := cbn [In]; repeat first [left; reflexivity | right].

(** X16. Allocation is balanced in every [probe] that returns: a bridge it
    allocates is either handed back through [*out_bridge] and never deleted,
    or deleted and not handed back; and it deletes nothing but the bridge it
    allocated itself. *)
Theorem allocation_is_balanced (st : status_t) (out : option bridge_ptr)
    (k' : kernel) (es : list event) :
  probe env loc parent_bus k = Done (st, out) k' ->
  calls k' = calls k ++ es ->
  (forall r, In (ev_new_bridge r) es ->
     r = p /\
     (out = Some r /\ ~ In (ev_delete_bridge r) es \/
      out = None /\ In (ev_delete_bridge r) es)) /\
  (forall r, In (ev_delete_bridge r) es -> In (ev_new_bridge r) es) /\
  (forall r, out = Some r -> In (ev_new_bridge r) es).
Proof.
  intros H Hes.
  pose proof (probe_runs env loc parent_bus k) as R. rewrite H in R.
  inversion R as [ es0 Hes0 | | | | | ]; subst;
    cbn [calls] in Hes; apply app_inv_head in Hes; subst es.
  - destruct Hes0 as [-> | ->]; (split; [|split]); intros r Hin;
      try discriminate; cbn [In] in Hin; intuition discriminate.
  - split; [|split]; intros r Hin; try discriminate.
    + cbn [In] in Hin.
      repeat (destruct Hin as [Hin|Hin]; try discriminate); [|contradiction].
      injection Hin as <-. split; [reflexivity|]. right. split; [reflexivity|find_event].
    + cbn [In] in Hin.
      repeat (destruct Hin as [Hin|Hin]; try discriminate); [|contradiction].
      injection Hin as <-. find_event.
  - split; [|split]; intros r Hin.
    + cbn [In] in Hin.
      repeat (destruct Hin as [Hin|Hin]; try discriminate); [|contradiction].
      injection Hin as <-. split; [reflexivity|]. left. split; [reflexivity|].
      cbn [In]. intuition discriminate.
    + cbn [In] in Hin. intuition discriminate.
    + injection Hin as <-. find_event.
  - split; [|split]; intros r Hin.
    + cbn [In] in Hin.
      repeat (destruct Hin as [Hin|Hin]; try discriminate); [|contradiction].
      injection Hin as <-. split; [reflexivity|]. left. split; [reflexivity|].
      cbn [In]. intuition discriminate.
    + cbn [In] in Hin. intuition discriminate.
    + injection Hin as <-. find_event.
  - split; [|split]; intros r Hin.
    + cbn [In] in Hin.
      repeat (destruct Hin as [Hin|Hin]; try discriminate); [|contradiction].
      injection Hin as <-. split; [reflexivity|]. left. split; [reflexivity|].
      cbn [In]. intuition discriminate.
    + cbn [In] in Hin. intuition discriminate.
    + injection Hin as <-. find_event.
Qed.

(** X17. Whenever the bus numbers of the snapshot do not describe a
    downstream range (secondary bus 0, or subordinate bus below the
    secondary bus), [probe] succeeds with a leaf bridge: no scan is started,
    the secondary-bus reference is null and the global bus list is
    untouched. *)
Theorem leaf_bridge_without_downstream_range (v h : Z) (e : status_t) (c : pci_config_t) :
  pci_read_config_half env loc PCI_CONFIG_VENDOR_ID = (NO_ERROR, v) ->
  v <> 0xffff ->
  pci_read_config_byte env loc PCI_CONFIG_HEADER_TYPE = (NO_ERROR, h) ->
  pci_read_config env loc = (e, c) ->
  0 <= e ->
  secondary_bus (type1 c) <= 0 \/ subordinate_bus (type1 c) < secondary_bus (type1 c) ->
  probe env loc parent_bus k =
    Done (NO_ERROR, Some p)
      {| heap := <[p := {| loc_ := loc; bus_ := parent_bus; config_ := c;
                           secondary_bus_ := None |}]> (heap k);
         bus_list := bus_list k;
         calls := calls k ++ [ev_read_config_half loc PCI_CONFIG_VENDOR_ID;
                              ev_read_config_byte loc PCI_CONFIG_HEADER_TYPE;
                              ev_new_bridge p;
                              ev_read_config loc p;
                              ev_probe_capabilities p] |}.
Proof.
  intros Hv Hp Hh Hc He Hrange.
  apply (probe_leaf env loc parent_bus k v Hv Hp h Hh e c Hc He).
  unfold sane_bus_range. apply andb_false_iff.
  rewrite Z.ltb_ge, Z.leb_gt. exact Hrange.
Qed.

End ProbeBalance.

(** ** The further properties on the sample inputs *)

Lemma empty_range_iff_degenerate_witness :
  prefetch_range (bridge_at sample_loc windows_config) = empty_range <->
  prefetchable_memory_limit (type1 windows_config)
    < prefetchable_memory_base (type1 windows_config).
Proof.
  apply (empty_range_iff_degenerate (bridge_at sample_loc windows_config)).
  reflexivity.
Defined.

Lemma window_size_in_granules_witness :
  limit (io_range (bridge_at sample_loc windows_config))
    - base (io_range (bridge_at sample_loc windows_config)) + 1 = 2 * 2 ^ 12 /\
  0 < 2.
Proof.
  apply (window_size_in_granules (bridge_at sample_loc windows_config));
    [reflexivity | vm_compute; discriminate].
Defined.

Lemma prefetch_range_inverted_iff_witness :
  limit (prefetch_range (bridge_at sample_loc crossed_config))
    < base (prefetch_range (bridge_at sample_loc crossed_config)).
Proof.
  apply (prefetch_range_inverted_iff (bridge_at sample_loc crossed_config));
    [reflexivity|].
  split; [vm_compute; discriminate|]. split; reflexivity.
Defined.

Lemma prefetch_range_32bit_as_mem_range_witness :
  prefetch_range (bridge_at sample_loc wider_config)
    = mem_range (bridge_at sample_loc wider_config).
Proof.
  apply (prefetch_range_32bit_as_mem_range (bridge_at sample_loc wider_config));
    [reflexivity | vm_compute; discriminate | reflexivity | reflexivity].
Defined.

Lemma io_mem_windows_monotone_witness :
  base (io_range (bridge_at sample_loc wider_config))
    <= base (io_range (bridge_at sample_loc windows_config)) /\
  limit (io_range (bridge_at sample_loc windows_config))
    <= limit (io_range (bridge_at sample_loc wider_config)).
Proof.
  apply (io_mem_windows_monotone (bridge_at sample_loc windows_config)
           (bridge_at sample_loc wider_config));
    [reflexivity | reflexivity | vm_compute; discriminate ..].
Defined.

Lemma low_nibbles_do_not_reach_the_range_witness :
  io_range (bridge_at sample_loc windows_config)
    = io_range (bridge_at sample_loc wider_config).
Proof.
  apply (low_nibbles_do_not_reach_the_range (bridge_at sample_loc windows_config)
           (bridge_at sample_loc wider_config));
    [reflexivity | reflexivity
    | vm_compute; discriminate | vm_compute; discriminate
    | reflexivity | reflexivity].
Defined.

Lemma unreadable_header_not_found_witness :
  probe unclassified_env sample_loc None boot =
    Done (ERR_NOT_FOUND, None)
      {| heap := ∅; bus_list := [];
         calls := [ev_read_config_half sample_loc PCI_CONFIG_VENDOR_ID;
                   ev_read_config_byte sample_loc PCI_CONFIG_HEADER_TYPE] |}.
Proof.
  apply (unreadable_header_not_found unclassified_env sample_loc None boot);
    [reflexivity | discriminate | discriminate].
Defined.

Lemma probe_status_and_bridge_witness :
  0 <= 0 /\
  (0 = NO_ERROR -> Some 0%nat = Some (fresh (dom (heap boot)))) /\
  (Some 0%nat = None -> 0 < 0) /\
  (Some 0%nat = None \/ Some 0%nat = Some (fresh (dom (heap boot)))).
Proof.
  apply (probe_status_and_bridge positive_status_env sample_loc None boot
           0 (Some 0%nat) (final (probe positive_status_env sample_loc None boot))).
  vm_compute. reflexivity.
Defined.

Lemma no_bridge_no_trace_witness :
  heap (final (probe unreadable_env sample_loc None boot)) = heap boot /\
  bus_list (final (probe unreadable_env sample_loc None boot)) = bus_list boot.
Proof.
  apply (no_bridge_no_trace unreadable_env sample_loc None boot (-20)).
  vm_compute. reflexivity.
Defined.

(** A second probe, on the kernel a first one left. *)
Lemma probe_preserves_existing_state_witness :
  heap (final (probe (scenario_env 2 (NO_ERROR, Some 7%nat)) sample_loc (Some 3%nat)
                 (final (probe (scenario_env 0 (NO_ERROR, None)) sample_loc None boot))))
    !! 0%nat
  = Some (bridge_at sample_loc (scenario_config 0)).
Proof.
  apply (proj1 (probe_preserves_existing_state (scenario_env 2 (NO_ERROR, Some 7%nat))
                  sample_loc (Some 3%nat)
                  (final (probe (scenario_env 0 (NO_ERROR, None)) sample_loc None boot)))).
  vm_compute. reflexivity.
Defined.

Lemma published_bridge_identity_witness :
  exists b,
    heap (final (probe (scenario_env 2 (NO_ERROR, Some 7%nat)) sample_loc None boot))
      !! 0%nat = Some b /\
    loc_ b = sample_loc /\
    bus_ b = None /\
    (forall new_bus, secondary_bus_ b = Some new_bus ->
       NO_ERROR = NO_ERROR /\
       exists earlier,
         bus_list (final (probe (scenario_env 2 (NO_ERROR, Some 7%nat)) sample_loc None
                            boot))
         = earlier ++ [new_bus]).
Proof.
  apply (published_bridge_identity (scenario_env 2 (NO_ERROR, Some 7%nat)) sample_loc None
           boot NO_ERROR 0%nat).
  vm_compute. reflexivity.
Defined.


Lemma downstream_probe_arguments_witness :
  0%nat = fresh (dom (heap boot)) /\
  {| segment := 0; bus := 2; dev := 0; fn := 0 |}
    = {| segment := segment sample_loc;
         bus := secondary_bus
                  (type1 (snd (pci_read_config (scenario_env 2 (-20, None)) sample_loc)));
         dev := 0; fn := 0 |} /\
  0 <= fst (pci_read_config (scenario_env 2 (-20, None)) sample_loc).
Proof.
  apply (proj1 (downstream_probe_arguments (scenario_env 2 (-20, None)) sample_loc None boot
                  (calls (final (probe (scenario_env 2 (-20, None)) sample_loc None boot)))
                  eq_refl)
           {| segment := 0; bus := 2; dev := 0; fn := 0 |} 0%nat).
  vm_compute. auto 10.
Defined.

Lemma successive_probes_do_not_collide_witness :
  is_Some (heap (final (probe (scenario_env 0 (NO_ERROR, None)) sample_loc None boot))
             !! 0%nat) /\
  heap (final (probe (scenario_env 2 (NO_ERROR, Some 7%nat)) sample_loc (Some 3%nat)
                 (final (probe (scenario_env 0 (NO_ERROR, None)) sample_loc None boot))))
    !! 0%nat
  = heap (final (probe (scenario_env 0 (NO_ERROR, None)) sample_loc None boot)) !! 0%nat /\
  (forall st' q' k2,
     probe (scenario_env 2 (NO_ERROR, Some 7%nat)) sample_loc (Some 3%nat)
       (final (probe (scenario_env 0 (NO_ERROR, None)) sample_loc None boot))
     = Done (st', Some q') k2 ->
     q' <> 0%nat).
Proof.
  apply (successive_probes_do_not_collide (scenario_env 0 (NO_ERROR, None))
           (scenario_env 2 (NO_ERROR, Some 7%nat)) sample_loc sample_loc None (Some 3%nat)
           boot (final (probe (scenario_env 0 (NO_ERROR, None)) sample_loc None boot))
           NO_ERROR 0%nat).
  vm_compute. reflexivity.
Defined.

Lemma allocation_is_balanced_witness :
  In (ev_new_bridge 0%nat) (calls (final (probe unreadable_env sample_loc None boot))).
Proof.
  apply (proj1 (proj2 (allocation_is_balanced unreadable_env sample_loc None boot
                         (-20) None (final (probe unreadable_env sample_loc None boot))
                         (calls (final (probe unreadable_env sample_loc None boot)))
                         ltac:(vm_compute; reflexivity) eq_refl)) 0%nat).
  vm_compute. auto 10.
Defined.

Lemma leaf_bridge_without_downstream_range_witness :
  probe (scenario_env 9 (NO_ERROR, Some 7%nat)) sample_loc None boot =
    Done (NO_ERROR, Some 0%nat)
      {| heap := <[0%nat := bridge_at sample_loc (scenario_config 9)]> ∅;
         bus_list := [];
         calls := [ev_read_config_half sample_loc PCI_CONFIG_VENDOR_ID;
                   ev_read_config_byte sample_loc PCI_CONFIG_HEADER_TYPE;
                   ev_new_bridge 0%nat;
                   ev_read_config sample_loc 0%nat;
                   ev_probe_capabilities 0%nat] |}.
Proof.
  apply (leaf_bridge_without_downstream_range (scenario_env 9 (NO_ERROR, Some 7%nat))
           sample_loc None boot 0x8086 1 NO_ERROR (scenario_config 9));
    [reflexivity | discriminate | reflexivity | reflexivity | discriminate
    | right; reflexivity].
Defined.
